(** * AML transaction monitoring: the detection pipeline of [app.py]

    A shallow embedding of [apply_rules] and [apply_ml] (and of the two
    lines of [main] that chain them), with the pandas operations they use
    and the part of scikit-learn's [IsolationForest] that decides the
    labels.
    The generator of the batches, the content of the report and the
    figures of the page follow the vocabulary of the pipeline.

    Conventions.
    - A pandas [DataFrame] is a mutable object: it lives in a heap and the
      functions of [app.py] receive and return a reference to it.  Its
      columns are a dictionary from column names to typed columns.
    - A [float64] is an exact rational or [NaN]; rounding is not modelled.
    - Operations are written for the dtypes the pipeline's columns have.
      A dtype combination outside of them raises [TypeError] where pandas
      does, and [Unmodelled] where pandas has a behaviour this file does
      not describe (no theorem below concerns such an outcome). *)

From Stdlib Require Import ZArith QArith Qround Lia Lqa SetoidList SetoidPermutation.
From stdpp Require Import base option list strings gmap sorting.

Local Open Scope Z_scope.

(** ** Scalars *)

Inductive float64 : Type :=
| Fin (q : Q)
| NaN.

Definition Qltb (x y : Q) : bool := negb (Qle_bool y x).

(** Comparisons with a [NaN] operand are false, as in IEEE 754. *)
Definition float_lt (x y : float64) : bool :=
  match x, y with
  | Fin a, Fin b => Qltb a b
  | _, _ => false
  end.

Definition float_gt (x y : float64) : bool := float_lt y x.

Definition float_ge (x y : float64) : bool :=
  match x, y with
  | Fin a, Fin b => Qle_bool b a
  | _, _ => false
  end.

Definition float_mul (x y : float64) : float64 :=
  match x, y with
  | Fin a, Fin b => Fin (a * b)
  | _, _ => NaN
  end.

Definition float_of_Z (z : Z) : float64 := Fin (inject_Z z).

Definition float_of_bool (b : bool) : float64 := float_of_Z (Z.b2z b).

(** ** Exceptions *)

Inductive exn : Type :=
| KeyError (k : string)
| TypeError
| ValueError
| Unmodelled.

Inductive result (A : Type) : Type :=
| Ok (a : A)
| Raise (e : exn).
Arguments Ok {A} a.
Arguments Raise {A} e.

Global Instance result_ret : MRet result := λ A a, Ok a.
Global Instance result_bind : MBind result := λ A B f r,
  match r with
  | Ok a => f a
  | Raise e => Raise e
  end.

(** ** Columns *)

Inductive Series : Type :=
| SInt (l : list Z)                  (* int64 *)
| SFloat (l : list float64)          (* float64 *)
| SBool (l : list bool)              (* bool *)
| SObj (l : list (option string))    (* object: str, or None for a missing value *)
| STime (l : list Z).                (* datetime64, as minutes on a fixed clock *)

Definition Series_len (s : Series) : nat :=
  match s with
  | SInt l => length l
  | SFloat l => length l
  | SBool l => length l
  | SObj l => length l
  | STime l => length l
  end.

(** The numeric view a comparison or an aggregate takes of a column. *)
Definition to_numeric (s : Series) : result (list float64) :=
  match s with
  | SInt l => Ok (float_of_Z <$> l)
  | SFloat l => Ok l
  | SBool l => Ok (float_of_bool <$> l)
  | SObj _ | STime _ => Raise TypeError
  end.

(** [s < c] *)
Definition Series_lt_scalar (s : Series) (c : Q) : result Series :=
  l ← to_numeric s; Ok (SBool ((λ x, float_lt x (Fin c)) <$> l)).

(** [s >= c] *)
Definition Series_ge_scalar (s : Series) (c : Q) : result Series :=
  l ← to_numeric s; Ok (SBool ((λ x, float_ge x (Fin c)) <$> l)).

(** [a > b], two columns of one frame *)
Definition Series_gt (a b : Series) : result Series :=
  x ← to_numeric a;
  y ← to_numeric b;
  if decide (length x = length y)
  then Ok (SBool (zip_with float_gt x y))
  else Raise ValueError.

(** [c * s] for an integer literal [c] *)
Definition Series_rmul (c : Z) (s : Series) : result Series :=
  match s with
  | SInt l => Ok (SInt (Z.mul c <$> l))
  | SFloat l => Ok (SFloat (float_mul (float_of_Z c) <$> l))
  | SBool l => Ok (SInt ((λ b, c * Z.b2z b) <$> l))
  | SObj _ | STime _ => Raise Unmodelled
  end.

(** [a & b] *)
Definition Series_and (a b : Series) : result Series :=
  match a, b with
  | SBool x, SBool y =>
      if decide (length x = length y)
      then Ok (SBool (zip_with andb x y))
      else Raise ValueError
  | _, _ => Raise Unmodelled
  end.

(** [s.isin(values)] for a list of strings: no number, boolean, time or
    missing value equals a string. *)
Definition Series_isin (s : Series) (values : list string) : Series :=
  match s with
  | SObj l =>
      SBool ((λ o, match o with
                   | Some x => bool_decide (x ∈ values)
                   | None => false
                   end) <$> l)
  | _ => SBool (replicate (Series_len s) false)
  end.

(** ** Grouped aggregates

    [df.groupby(by)[col].transform(agg)] gives every row the aggregate of
    [col] over the rows that share its key. *)

Definition group_of {A} (keys : list Z) (k : Z) (vals : list A) : list A :=
  snd <$> filter (λ p, p.1 = k) (zip keys vals).

Definition transform {A B} (agg : list A → B) (keys : list Z) (vals : list A) : list B :=
  (λ k, agg (group_of keys k vals)) <$> keys.

Definition sum_Z (l : list Z) : Z := foldr Z.add 0 l.

Definition finite (l : list float64) : list Q :=
  omap (λ x, match x with Fin q => Some q | NaN => None end) l.

Definition sum_Q (l : list Q) : Q := foldr Qplus 0%Q l.

(** Aggregates skip [NaN]. *)
Definition sum_float (l : list float64) : float64 := Fin (sum_Q (finite l)).

Definition mean_float (l : list float64) : float64 :=
  match finite l with
  | [] => NaN
  | xs => Fin (sum_Q xs / inject_Z (Z.of_nat (length xs)))
  end.

Inductive aggregate : Type := agg_sum | agg_mean.

Definition groupby_transform (keys vals : Series) (agg : aggregate) : result Series :=
  match keys with
  | SInt ks =>
      match agg, vals with
      | agg_sum, SInt l => Ok (SInt (transform sum_Z ks l))
      | agg_sum, SBool l => Ok (SInt (transform (λ g, sum_Z (Z.b2z <$> g)) ks l))
      | agg_sum, SFloat l => Ok (SFloat (transform sum_float ks l))
      | agg_mean, (SInt _ | SFloat _ | SBool _) =>
          l ← to_numeric vals; Ok (SFloat (transform mean_float ks l))
      | _, _ => Raise Unmodelled
      end
  | _ => Raise Unmodelled
  end.

(** ** Frames and the heap *)

(** A frame: its length and its columns. *)
Record DataFrame : Type := mkDataFrame {
  nrows : nat;                   (* len(df) *)
  data : gmap string Series      (* the columns by name *)
}.

(** A row of the batch, with the six fields [generate_transactions]
    gives it. *)
Record Transaction : Type := mkTransaction {
  transaction_id : Z;
  sender_id : Z;
  receiver_id : Z;
  amount : Q;
  timestamp : Z;
  location : option string
}.

(** [pd.DataFrame(data, columns=[...])] of [generate_transactions]: the
    frame of a list of rows, each column with the dtype of the values the
    generator puts in it (a place may also be missing). *)
Definition pd_DataFrame (rows : list Transaction) : DataFrame :=
  {| nrows := length rows;
     data :=
       <["transaction_id" := SInt (transaction_id <$> rows)]>
       (<["sender_id" := SInt (sender_id <$> rows)]>
       (<["receiver_id" := SInt (receiver_id <$> rows)]>
       (<["amount" := SFloat ((λ t, Fin (amount t)) <$> rows)]>
       (<["timestamp" := STime (timestamp <$> rows)]>
       (<["location" := SObj (location <$> rows)]> ∅))))) |}.

(** The state of numpy's generator (a Mersenne Twister). *)
Inductive RandomState : Type := MT19937 (key : list Z) (pos : Z).

(** What the program can read and write. *)
Record world : Type := mkWorld {
  heap : gmap positive DataFrame;    (* the frames alive, by address *)
  np_random : RandomState            (* numpy's global generator *)
}.

(** A statement runs in a world; it returns or raises, and leaves a
    world in both cases. *)
Definition M (A : Type) : Type := world → result A * world.

Global Instance M_ret : MRet M := λ A a w, (Ok a, w).
Global Instance M_bind : MBind M := λ A B f m w,
  match m w with
  | (Ok a, w') => f a w'
  | (Raise e, w') => (Raise e, w')
  end.

(** A computation on values, which leaves the world alone. *)
Definition lift {A} (r : result A) : M A := λ w, (r, w).

(** Reading and writing the frame behind a reference. *)
Definition frame (df : positive) : M DataFrame := λ w,
  match heap w !! df with
  | Some F => (Ok F, w)
  | None => (Raise Unmodelled, w)
  end.

Definition store (df : positive) (F : DataFrame) : M unit := λ w,
  (Ok (), {| heap := <[df := F]> (heap w); np_random := np_random w |}).

(** [df[k]] *)
Definition getitem (df : positive) (k : string) : M Series :=
  F ← frame df;
  match data F !! k with
  | Some s => mret s
  | None => lift (Raise (KeyError k))
  end.

(** [df[k] = s], in place *)
Definition setitem (df : positive) (k : string) (s : Series) : M unit :=
  F ← frame df;
  if decide (Series_len s = nrows F)
  then store df {| nrows := nrows F; data := <[k := s]> (data F) |}
  else lift (Raise ValueError).

(** [df[k] = z] for an integer literal [z], in place *)
Definition setitem_scalar (df : positive) (k : string) (z : Z) : M unit :=
  F ← frame df;
  setitem df k (SInt (replicate (nrows F) z)).

(** [df.loc[mask, k] = z] on an existing integer column, in place *)
Definition loc_setitem (df : positive) (mask : Series) (k : string) (z : Z) : M unit :=
  F ← frame df;
  match mask, data F !! k with
  | SBool m, Some (SInt l) =>
      if decide (length m = length l)
      then setitem df k (SInt (zip_with (λ (b : bool) x, if b then z else x) m l))
      else lift (Raise ValueError)
  | _, _ => lift (Raise Unmodelled)
  end.

(** [df.groupby(by)[col].transform(agg)] *)
Definition groupby (df : positive) (by_ col : string) (agg : aggregate) : M Series :=
  keys ← getitem df by_;
  vals ← getitem df col;
  lift (groupby_transform keys vals agg).

(** ** Rule-based AML checks *)

(** The list given to [isin]. *)
Definition high_risk : list string := ["Offshore"; "Garissa"].

(** Rule 1: Structuring *)
Definition rule1 (df : positive) : M unit :=
  amount ← getitem df "amount";
  small ← lift (Series_lt_scalar amount 1000);
  setitem df "small_txn" small;;
  counts ← groupby df "sender_id" "small_txn" agg_sum;
  structuring ← lift (Series_ge_scalar counts 5);
  small_txn ← getitem df "small_txn";
  mask ← lift (Series_and structuring small_txn);
  loc_setitem df mask "rule_flagged" 1.

(** Rule 2: High-risk locations *)
Definition rule2 (df : positive) : M unit :=
  location ← getitem df "location";
  loc_setitem df (Series_isin location high_risk) "rule_flagged" 1.

(** Rule 3: Transaction spikes *)
Definition rule3 (df : positive) : M unit :=
  avg_amounts ← groupby df "sender_id" "amount" agg_mean;
  amount ← getitem df "amount";
  limit ← lift (Series_rmul 5 avg_amounts);
  mask ← lift (Series_gt amount limit);
  loc_setitem df mask "rule_flagged" 1.

(** [apply_rules(df)] *)
Definition apply_rules (df : positive) : M positive :=
  setitem_scalar df "rule_flagged" 0;;
  rule1 df;;
  rule2 df;;
  rule3 df;;
  mret df.

(** ** ML anomaly detection *)

(** *** [pd.get_dummies(..., drop_first=True)]

    A numeric column is kept; an object column becomes one indicator
    column per distinct value, in sorted order, the first one dropped.  A
    missing value belongs to no category. *)

(** The distinct values of a column in sorted order. *)
Fixpoint insert_category (s : string) (l : list string) : list string :=
  match l with
  | [] => [s]
  | x :: l' =>
      match String.compare s x with
      | Lt => s :: l
      | Eq => l
      | Gt => x :: insert_category s l'
      end
  end.

Definition categories (l : list (option string)) : list string :=
  foldr (λ o acc, match o with
                  | Some s => insert_category s acc
                  | None => acc
                  end) [] l.

(** The indicator of the category [c]. *)
Definition indicator (c : string) (o : option string) : float64 :=
  float_of_bool (bool_decide (o = Some c)).

(** The columns [get_dummies] makes of one column, then of a frame. *)
Definition dummies (s : Series) : result (list (list float64)) :=
  match s with
  | SObj l => Ok ((λ c, indicator c <$> l) <$> tail (categories l))
  | STime _ => Raise Unmodelled
  | _ => l ← to_numeric s; Ok [l]
  end.

Fixpoint get_dummies (columns : list Series) : result (list (list float64)) :=
  match columns with
  | [] => Ok []
  | s :: rest => d ← dummies s; ds ← get_dummies rest; Ok (d ++ ds)
  end.

(** The [n] rows of a frame given by its columns: the array scikit-learn
    reads. *)
Definition to_array (n : nat) (columns : list (list float64)) : list (list float64) :=
  (λ i, (λ c, nth i c NaN) <$> columns) <$> seq 0 n.

(** *** [sklearn.ensemble.IsolationForest]

    The trees and the score they give a sample are the library's: they
    are taken as given, [iforest_score rnd X x] being the score (the
    opposite of the anomaly score, as [score_samples] returns it) of the
    sample [x] under the forest grown on [X] by a generator in state
    [rnd], and [iforest_draws rnd X] the state the generator is left in.
    What [fit] and [predict] do with the scores is written out. *)

Record sklearn : Type := mkSklearn {
  RandomState_seed : Z → RandomState;       (* np.random.RandomState(seed) *)
  iforest_draws : RandomState → list (list float64) → RandomState;
  iforest_score : RandomState → list (list float64) → list float64 → Q
}.

(** [IsolationForest(contamination=..., random_state=...)] *)
Record IsolationForest : Type := mkIsolationForest {
  contamination : Q;
  random_state : option Z
}.

Global Instance Qle_dec : RelDecision Qle :=
  λ x y, decide (Qnum x * QDen y ≤ Qnum y * QDen x)%Z.

(** [np.percentile(a, q)] of a non-empty array, by linear interpolation
    between the two closest ranks (the array [fit] passes is never
    empty). *)
Definition np_percentile (a : list Q) (q : Q) : Q :=
  let sorted := merge_sort Qle a in
  let n := Z.of_nat (length a) in
  let virtual := (q / 100 * inject_Z (n - 1))%Q in
  let previous := Qfloor virtual in
  let gamma := (virtual - inject_Z previous)%Q in
  let lower := nth (Z.to_nat previous) sorted 0%Q in
  let upper := nth (Z.to_nat (Z.min (previous + 1) (n - 1))) sorted 0%Q in
  (lower + gamma * (upper - lower))%Q.

Section Detection.

Context (sk : sklearn).

(** [check_random_state]: an integer seeds a generator of its own,
    [None] is numpy's global generator. *)
Definition check_random_state (seed : option Z) : M RandomState :=
  match seed with
  | Some s => mret (RandomState_seed sk s)
  | None => λ w, (Ok (np_random w), w)
  end.

(** Growing the forest draws from the generator: the global one moves on
    when it is the one in use. *)
Definition advance (seed : option Z) (rnd : RandomState) : M unit :=
  match seed with
  | Some _ => mret ()
  | None => λ w, (Ok (), {| heap := heap w; np_random := rnd |})
  end.

(** [iso.fit_predict(X)]: [fit] refuses a contamination outside
    (0, 0.5] and an array with no sample, grows the forest and sets
    [offset_] to the [100 * contamination] percentile of the scores of
    [X]; [predict] labels -1 the samples whose [decision_function], the
    score minus [offset_], is negative, and 1 the others. *)
Definition fit_predict (iso : IsolationForest) (X : list (list float64)) : M (list Z) :=
  if negb (Qltb 0 (contamination iso) && Qle_bool (contamination iso) (1 # 2))
  then lift (Raise ValueError)
  else
    match X with
    | [] => lift (Raise ValueError)
    | _ =>
        rnd ← check_random_state (random_state iso);
        advance (random_state iso) (iforest_draws sk rnd X);;
        let scores := iforest_score sk rnd X <$> X in
        let offset_ := np_percentile scores (100 * contamination iso) in
        mret ((λ s, if Qltb (s - offset_) 0 then -1 else 1) <$> scores)
    end.

(** [s.map(d)] for a dictionary of integers: a value that is no key of
    [d] becomes [NaN], and the column is then a float column. *)
Definition Series_map (s : Series) (d : gmap Z Z) : result Series :=
  match s with
  | SInt l =>
      match mapM (λ x, d !! x) l with
      | Some l' => Ok (SInt l')
      | None =>
          Ok (SFloat ((λ x, match d !! x with
                            | Some z => float_of_Z z
                            | None => NaN
                            end) <$> l))
      end
  | _ => Raise Unmodelled
  end.

(** The larger of two floats, [NaN] put aside. *)
Definition float_max (x y : float64) : float64 :=
  match x, y with
  | Fin a, Fin b => Fin (if Qle_bool a b then b else a)
  | Fin a, NaN => Fin a
  | NaN, _ => y
  end.

(** [df[[a, b]].max(axis=1)], which skips [NaN] *)
Definition max_axis1 (a b : Series) : result Series :=
  match a, b with
  | SInt x, SInt y => Ok (SInt (zip_with Z.max x y))
  | SInt _, SFloat _ | SFloat _, SInt _ | SFloat _, SFloat _ =>
      x ← to_numeric a; y ← to_numeric b; Ok (SFloat (zip_with float_max x y))
  | _, _ => Raise Unmodelled
  end.

(** [apply_ml(df)] *)
Definition apply_ml (df : positive) : M positive :=
  amount ← getitem df "amount";
  location ← getitem df "location";
  F ← frame df;
  features ← lift (get_dummies [amount; location]);
  let iso := {| contamination := 2 # 100; random_state := Some 42 |} in
  labels ← fit_predict iso (to_array (nrows F) features);
  setitem df "ml_flagged" (SInt labels);;
  ml ← getitem df "ml_flagged";
  mapped ← lift (Series_map ml {[ 1 := 0; -1 := 1 ]});
  setitem df "ml_flagged" mapped;;
  rule_flagged ← getitem df "rule_flagged";
  ml_flagged ← getitem df "ml_flagged";
  suspicious ← lift (max_axis1 rule_flagged ml_flagged);
  setitem df "suspicious" suspicious;;
  mret df.

(** The detection pipeline, as [main] chains it: [df = apply_rules(df)]
    then [df = apply_ml(df)]. *)
Definition detect (df : positive) : M positive :=
  df ← apply_rules df;
  apply_ml df.

End Detection.

(** * The vocabulary of the properties

    Definitions only: what the statements below are about, the closed
    forms of what the pipeline computes, and example data. *)

(** ** Batches and cells *)

Global Instance Qlt_dec : RelDecision Qlt :=
  λ x y, decide (Qnum x * QDen y < Qnum y * QDen x)%Z.

(** The rows of a batch sent by [s]. *)
Definition sent_by (s : Z) (rows : list Transaction) : list Transaction :=
  filter (λ t, sender_id t = s) rows.

(** A small transaction: [amount < 1000]. *)
Definition small (t : Transaction) : Prop := (amount t < 1000)%Q.

Global Instance small_dec t : Decision (small t) := Qlt_dec _ _.

(** How many small transactions [s] has in the batch. *)
Definition small_count (rows : list Transaction) (s : Z) : nat :=
  length (filter small (sent_by s rows)).

(** The mean amount of the transactions of [s] in the batch. *)
Definition mean_amount (rows : list Transaction) (s : Z) : Q :=
  (sum_Q (amount <$> sent_by s rows)
   / inject_Z (Z.of_nat (length (sent_by s rows))))%Q.

(** A cell of a column, with its dtype. *)
Inductive cell : Type :=
| int_cell (z : Z)
| float_cell (x : float64)
| bool_cell (b : bool)
| obj_cell (o : option string)
| time_cell (z : Z).

(** [s.iloc[i]] *)
Definition Series_at (s : Series) (i : nat) : option cell :=
  match s with
  | SInt l => int_cell <$> l !! i
  | SFloat l => float_cell <$> l !! i
  | SBool l => bool_cell <$> l !! i
  | SObj l => obj_cell <$> l !! i
  | STime l => time_cell <$> l !! i
  end.

(** The column [k] of the frame at [df], if there is one. *)
Definition column (df : positive) (k : string) (w : world) : option Series :=
  F ← heap w !! df; data F !! k.

(** The cell of column [k] at row [i] of the frame at [df]. *)
Definition at_ (df : positive) (k : string) (i : nat) (w : world) : option cell :=
  s ← column df k w; Series_at s i.

(** The frame at [df] holds the batch [rows]: the columns the pipeline
    reads are those of [rows]. *)
Definition holds (rows : list Transaction) (F : DataFrame) : Prop :=
  nrows F = length rows
  ∧ data F !! "sender_id" = Some (SInt (sender_id <$> rows))
  ∧ data F !! "amount" = Some (SFloat ((λ t, Fin (amount t)) <$> rows))
  ∧ data F !! "location" = Some (SObj (location <$> rows)).

(** A rule on its own: [rule_flagged] cleared, then the block of the rule. *)
Definition rule_alone (rule : positive → M unit) (df : positive) : M unit :=
  setitem_scalar df "rule_flagged" 0;; rule df.

(** The columns the pipeline writes. *)
Definition written : list string :=
  ["rule_flagged"; "small_txn"; "ml_flagged"; "suspicious"].

(** ** The contamination rate *)

(** Python's [round]: to the nearest integer, a tie going to the even one. *)
Definition py_round (q : Q) : Z :=
  let f := Qfloor q in
  match (q - inject_Z f ?= 1 # 2)%Q with
  | Lt => f
  | Gt => f + 1
  | Eq => if Z.even f then f else f + 1
  end.

(** [round(0.02 * n)] *)
Definition target (n : nat) : Z := py_round ((2 # 100) * inject_Z (Z.of_nat n)).

(** How many cells of a column of flags are 1. *)
Definition count_flagged (l : list Z) : Z :=
  Z.of_nat (length (filter (λ z, z = 1) l)).

(** How many elements of [l] are strictly below [θ]. *)
Definition below (θ : Q) (l : list Q) : nat :=
  length (filter (λ s, (s < θ)%Q) l).

(** The rank below the 2nd percentile in an array of [n] scores. *)
Definition rank (n : nat) : nat := Z.to_nat ((Z.of_nat n - 1) / 50).

(** A decision procedure for the distinctness of scores. *)
Fixpoint distinctb (l : list Q) : bool :=
  match l with
  | [] => true
  | x :: l' => forallb (λ y, negb (Qeq_bool x y)) l' && distinctb l'
  end.

(** ** What the pipeline computes, row by row *)

(** The frame [F] with the column [k] set to [s]. *)
Definition upd (k : string) (s : Series) (F : DataFrame) : DataFrame :=
  {| nrows := nrows F; data := <[k := s]> (data F) |}.

(** The world [w] with the frame at [df] replaced by [F]. *)
Definition put (df : positive) (F : DataFrame) (w : world) : world :=
  {| heap := <[df := F]> (heap w); np_random := np_random w |}.

(** [df.loc[mask, k] = z] on columns given row by row *)
Definition set_where (z : Z) (m : list bool) (l : list Z) : list Z :=
  zip_with (λ (b : bool) x, if b then z else x) m l.

(** The masks of the three rules. *)
Definition fires1 (rows : list Transaction) (t : Transaction) : bool :=
  bool_decide (5 ≤ small_count rows (sender_id t))%nat && bool_decide (small t).

Definition fires2 (t : Transaction) : bool :=
  match location t with
  | Some x => bool_decide (x ∈ high_risk)
  | None => false
  end.

Definition fires3 (rows : list Transaction) (t : Transaction) : bool :=
  bool_decide (5 * mean_amount rows (sender_id t) < amount t)%Q.

(** The flags [apply_rules] leaves in [rule_flagged]. *)
Definition rule_flag (rows : list Transaction) (t : Transaction) : Z :=
  if fires3 rows t then 1
  else if fires2 t then 1
  else if fires1 rows t then 1
  else 0.

(** The frame [apply_rules] leaves. *)
Definition after_rules (rows : list Transaction) (F : DataFrame) : DataFrame :=
  upd "rule_flagged" (SInt (rule_flag rows <$> rows))
    (upd "small_txn" (SBool ((λ t, bool_decide (small t)) <$> rows)) F).

(** The array [apply_ml] hands to the forest, row by row. *)
Definition feature_row (cats : list string) (t : Transaction) : list float64 :=
  Fin (amount t) :: ((λ c, indicator c (location t)) <$> cats).

Definition features (rows : list Transaction) : list (list float64) :=
  feature_row (tail (categories (location <$> rows))) <$> rows.

(** The same array column by column, as [get_dummies] builds it. *)
Definition feature_columns (rows : list Transaction) : list (list float64) :=
  ((λ t, Fin (amount t)) <$> rows)
  :: ((λ c, indicator c <$> (location <$> rows)) <$> tail (categories (location <$> rows))).

Section Forest.

Context (sk : sklearn).

(** The score of each row under the forest grown on the batch with seed 42. *)
Definition score (rows : list Transaction) (x : list float64) : Q :=
  iforest_score sk (RandomState_seed sk 42) (features rows) x.

(** The scores of the batch, its threshold, and the test [predict] makes. *)
Definition scores (rows : list Transaction) : list Q :=
  score rows <$> features rows.

Definition offset_ (rows : list Transaction) : Q :=
  np_percentile (scores rows) (100 * (2 # 100)).

Definition outlier (rows : list Transaction) (s : Q) : bool :=
  Qltb (s - offset_ rows) 0.

(** The flag [apply_ml] leaves in [ml_flagged]. *)
Definition ml_flag (rows : list Transaction) (s : Q) : Z :=
  if outlier rows s then 1 else 0.

(** The score of a transaction, and the flag [apply_ml] gives it. *)
Definition ml_flag_of (rows : list Transaction) (t : Transaction) : Z :=
  ml_flag rows
    (score rows (feature_row (tail (categories (location <$> rows))) t)).

(** The frame [apply_ml] leaves, when [rule_flagged] holds [g] of each row. *)
Definition after_ml (rows : list Transaction) (g : Transaction → Z) (F : DataFrame) : DataFrame :=
  upd "suspicious"
    (SInt (zip_with Z.max (g <$> rows) (ml_flag rows <$> scores rows)))
    (upd "ml_flagged" (SInt (ml_flag rows <$> scores rows)) F).

(** The frame the whole pipeline leaves. *)
Definition verdicts (rows : list Transaction) (F : DataFrame) : DataFrame :=
  upd "suspicious"
    (SInt ((λ t, Z.max (rule_flag rows t) (ml_flag_of rows t)) <$> rows))
    (upd "ml_flagged" (SInt (ml_flag_of rows <$> rows)) (after_rules rows F)).

End Forest.

(** ** Example data *)

(** A transfer of [a] from sender [s], from the place [l]. *)
Definition tx (i s : Z) (a : Q) (l : string) : Transaction :=
  mkTransaction i s 0 a 0 (Some l).

(** A world whose only frame, at address 1, is the frame of [rows]. *)
Definition world_of (rows : list Transaction) : world :=
  mkWorld {[ 1%positive := pd_DataFrame rows ]} (MT19937 [] 0).

(** A stand-in for the library's forest, to run the pipeline on examples:
    the larger the amount, the lower the score. *)
Definition toy : sklearn :=
  {| RandomState_seed := λ s, MT19937 [s] 0;
     iforest_draws := λ r _, r;
     iforest_score := λ _ _ x, match x with
                               | Fin a :: _ => (- a)%Q
                               | _ => 0%Q
                               end |}.

(** A batch with a structurer (sender 7, five small transfers and a large
    one), a spike (sender 8), a sender with exactly four small transfers
    (9), a sender with a single transfer (10) and a sender whose largest
    transfer is exactly five times its mean (11). *)
Definition sample : list Transaction :=
  [ tx 1 7 500 "Nairobi"; tx 2 7 500 "Nairobi"; tx 3 7 500 "Nairobi";
    tx 4 7 500 "Nairobi"; tx 5 7 1500 "Nairobi"; tx 6 7 999 "Garissa";
    tx 7 8 1 "Kisumu"; tx 8 8 1 "Kisumu"; tx 9 8 1 "Kisumu";
    tx 10 8 1 "Kisumu"; tx 11 8 1 "Kisumu"; tx 12 8 1 "Kisumu";
    tx 13 8 1000 "Kisumu";
    tx 14 9 100 "Mombasa"; tx 15 9 100 "Mombasa"; tx 16 9 100 "Mombasa";
    tx 17 9 100 "Mombasa";
    tx 18 10 4000 "Nairobi";
    tx 19 11 1 "Mombasa"; tx 20 11 1 "Mombasa"; tx 21 11 1 "Mombasa";
    tx 22 11 1 "Mombasa"; tx 23 11 1 "Mombasa"; tx 24 11 25 "Mombasa" ].

(** A transfer of -5 with no location. *)
Definition malformed : list Transaction := [mkTransaction 1 7 8 (-5) 0 None].

(** Another world holding the sample batch: at another address, beside
    another frame, with another state of the global generator. *)
Definition elsewhere : world :=
  mkWorld {[ 5%positive := pd_DataFrame sample; 1%positive := pd_DataFrame [] ]}
          (MT19937 [1; 2; 3] 7).

(** Two hundred transfers of 500 from Nairobi. *)
Definition uniform_batch : list Transaction :=
  (λ i, tx i 7 500 "Nairobi") <$> seqZ 1 200.

(** Sixty transfers of 1, 2, ..., 60: the stand-in forest gives them
    sixty different scores. *)
Definition ascending : list Transaction :=
  (λ i, tx i i (inject_Z i) "Nairobi") <$> seqZ 1 60.

(** * The rest of [app.py]

    The generator of the batches, the report and the figures of the page
    that [main] shows, with the vocabulary and the example data of their
    properties. *)

(** ** Generate synthetic transactions *)

(** Python's [random] module and Faker each draw from a Mersenne Twister
    of their own.  What a draw returns is the library's: [random()] and
    [_randbelow(n)] are taken as given, with the ranges they are
    documented to have, a float in [0, 1) and an integer in [0, n). *)
Record draws : Type := mkDraws {
  mt_random : RandomState → Q * RandomState;
  mt_randbelow : Z → RandomState → Z * RandomState;
  mt_random_range : ∀ s, (0 <= (mt_random s).1)%Q ∧ ((mt_random s).1 < 1)%Q;
  mt_randbelow_range : ∀ n s, 0 < n → 0 ≤ (mt_randbelow n s).1 < n
}.

(** The two generators [generate_transactions] draws from. *)
Record generators : Type := mkGenerators {
  py_random : RandomState;       (* the hidden instance of the random module *)
  faker_random : RandomState     (* the instance Faker draws from *)
}.

(** A statement that draws: it returns, and moves the generators on. *)
Definition Gen (A : Type) : Type := generators → A * generators.

Global Instance Gen_ret : MRet Gen := λ A a g, (a, g).
Global Instance Gen_bind : MBind Gen := λ A B f m g,
  let r := m g in f r.1 r.2.

(** [for x in l: data.append(body(x))] *)
Fixpoint for_ {A B} (l : list A) (body : A → Gen B) : Gen (list B) :=
  match l with
  | [] => mret []
  | a :: l' => b ← body a; bs ← for_ l' body; mret (b :: bs)
  end.

(** [round(x, 2)] *)
Definition round2 (x : Q) : Q := (inject_Z (py_round (x * 100)) / 100)%Q.

Definition places : list string :=
  ["Nairobi"; "Mombasa"; "Kisumu"; "Garissa"; "Offshore"].

Section Generate.

Context (mt : draws).

(** [random.uniform(a, b)], which is [a + (b - a) * random()] *)
Definition random_uniform (a b : Q) : Gen Q := λ g,
  let r := mt_random mt (py_random g) in
  ((a + (b - a) * r.1)%Q, {| py_random := r.2; faker_random := faker_random g |}).

(** [random.randint(a, b)], which is [a + _randbelow(b - a + 1)] *)
Definition random_randint (a b : Z) : Gen Z := λ g,
  let r := mt_randbelow mt (b - a + 1) (py_random g) in
  (a + r.1, {| py_random := r.2; faker_random := faker_random g |}).

(** [random.choice(seq)], which is [seq[_randbelow(len(seq))]], for a
    list that is not empty *)
Definition random_choice (seq_ : list string) : Gen string := λ g,
  let r := mt_randbelow mt (Z.of_nat (length seq_)) (py_random g) in
  (nth (Z.to_nat r.1) seq_ ""%string,
   {| py_random := r.2; faker_random := faker_random g |}).

(** [fake.random_int(min=a, max=b)], which is [a + _randbelow(b - a + 1)]
    on Faker's generator *)
Definition fake_random_int (a b : Z) : Gen Z := λ g,
  let r := mt_randbelow mt (b - a + 1) (faker_random g) in
  (a + r.1, {| py_random := py_random g; faker_random := r.2 |}).

(** The list [data] of [generate_transactions(n)], [base_time] being
    what [pd.Timestamp.now()] returned. *)
Definition generate_rows (base_time n : Z) : Gen (list Transaction) :=
  data ← for_ (seqZ 0 n) (λ i,
    sender ← fake_random_int 1000 9999;
    receiver ← fake_random_int 1000 9999;
    amount ← random_uniform 50 5000;
    minutes ← random_randint 0 50000;
    location ← random_choice places;
    mret (mkTransaction (i + 1) sender receiver (round2 amount)
                        (base_time - minutes) (Some location)));
  (* Inject structuring (small repeated transactions) *)
  injected ← for_ (seqZ 0 20) (λ j,
    sender ← fake_random_int 1000 9999;
    for_ (seqZ 0 10) (λ k,
      receiver ← fake_random_int 1000 9999;
      amount ← random_uniform 100 999;
      mret (mkTransaction (n + j * 10 + k) sender receiver amount
                          (base_time - k) (Some "Nairobi"%string))));
  mret (data ++ concat injected).

Definition generate_transactions (base_time n : Z) : Gen DataFrame :=
  rows ← generate_rows base_time n; mret (pd_DataFrame rows).

End Generate.

(** ** The simulation *)

(** A new frame gets an address no frame has. *)
Definition alloc (F : DataFrame) : M positive := λ w,
  (Ok (fresh (dom (heap w))),
   {| heap := <[fresh (dom (heap w)) := F]> (heap w); np_random := np_random w |}).

(** What [main] runs when the button is pressed: [generate_transactions],
    [apply_rules], [apply_ml]. *)
Definition run_simulation (mt : draws) (sk : sklearn) (base_time n : Z)
    (g : generators) (w : world) : result positive * world * generators :=
  let gen := generate_transactions mt base_time n g in
  ((df ← alloc gen.1; df ← apply_rules df; apply_ml sk df) w, gen.2).

(** ** PDF reporting

    What [generate_pdf_report] computes for the report: the figures of
    the executive summary and the rows of the table.  The rendering of
    the PDF is ReportLab's and is left out. *)

(** [s.sum()] of a column of integers or of booleans *)
Definition Series_sum (s : Series) : result Z :=
  match s with
  | SInt l => Ok (sum_Z l)
  | SBool l => Ok (sum_Z (Z.b2z <$> l))
  | SFloat _ | SObj _ | STime _ => Raise Unmodelled
  end.

(** [a / b] of a numpy integer by an integer: a float, and [nan] (with a
    warning, no exception) for [0 / 0] *)
Definition true_divide (a b : Z) : result float64 :=
  if decide (b = 0)
  then (if decide (a = 0) then Ok NaN else Raise Unmodelled)
  else Ok (Fin (inject_Z a / inject_Z b)).

(** [round(x, 2)] of a numpy float *)
Definition float_round2 (x : float64) : float64 :=
  match x with
  | Fin q => Fin (round2 q)
  | NaN => NaN
  end.

(** [s == z] on a column of integers *)
Definition Series_eq_scalar (s : Series) (z : Z) : result (list bool) :=
  match s with
  | SInt l => Ok ((λ x, bool_decide (x = z)) <$> l)
  | SFloat _ | SBool _ | SObj _ | STime _ => Raise Unmodelled
  end.

(** [df[mask]] keeps the rows where the mask is true.  The frame has the
    default index, so the label of a row is its position: the labels of
    the rows kept. *)
Definition kept (mask : list bool) : list nat :=
  filter (λ i, mask !! i = Some true) (seq 0 (length mask)).

(** The keys [sort_values] sorts a numeric column by. *)
Definition sort_keys (s : Series) : result (list float64) :=
  match s with
  | SInt l => Ok (float_of_Z <$> l)
  | SFloat l => Ok l
  | SBool _ | SObj _ | STime _ => Raise Unmodelled
  end.

(** The descending order of [sort_values(ascending=False)]: larger keys
    first, [nan] last. *)
Definition float_desc (x y : float64) : Prop :=
  match x, y with
  | Fin a, Fin b => (b <= a)%Q
  | _, NaN => True
  | NaN, Fin _ => False
  end.

Global Instance float_desc_dec : RelDecision float_desc.
Proof. intros [a|] [b|]; simpl; apply _. Defined.

Definition key_of (keys : list float64) (i : nat) : float64 :=
  default NaN (keys !! i).

(** [frame.sort_values(by, ascending=False)], on the labels of the rows of
    the frame.  Which of two rows with equal keys comes first is the
    sorting algorithm's choice; nothing below depends on it. *)
Definition before (keys : list float64) (i j : nat) : Prop :=
  float_desc (key_of keys i) (key_of keys j).

Global Instance before_dec keys : RelDecision (before keys) :=
  λ i j, float_desc_dec (key_of keys i) (key_of keys j).

Definition sort_values_desc (keys : list float64) (index : list nat) : list nat :=
  merge_sort (before keys) index.

(** [for x in l: ...] for statements that run in a world *)
Fixpoint for_M {A B} (l : list A) (body : A → M B) : M (list B) :=
  match l with
  | [] => mret []
  | a :: l' => b ← body a; bs ← for_M l' body; mret (b :: bs)
  end.

(** [row[k]] for the row with label [i] *)
Definition row_getitem (df : positive) (i : nat) (k : string) : M cell :=
  s ← getitem df k;
  match Series_at s i with
  | Some c => mret c
  | None => lift (Raise Unmodelled)
  end.

(** The columns a line of the table prints. *)
Definition printed : list string :=
  ["transaction_id"; "sender_id"; "receiver_id"; "amount"; "location"].

(** The content of the report. *)
Record report : Type := mkReport {
  total_txn : nat;
  total_suspicious : Z;
  perc : float64;
  risk_level : string;
  top_suspicious : list (list cell)    (* a line of the table: the cells it prints *)
}.

Definition generate_pdf_report (df : positive) : M report :=
  (* Executive Summary *)
  F ← frame df;
  let total_txn := nrows F in
  s ← getitem df "suspicious";
  total_suspicious ← lift (Series_sum s);
  ratio ← lift (true_divide total_suspicious (Z.of_nat total_txn));
  let perc := float_round2 (float_mul ratio (Fin 100)) in
  let risk_level :=
    if float_gt perc (Fin 5) then "High Risk"%string
    else if float_gt perc (Fin 2) then "Elevated"%string
    else "Low Risk"%string in
  (* Top suspicious transactions *)
  s ← getitem df "suspicious";
  mask ← lift (Series_eq_scalar s 1);
  a ← getitem df "amount";
  keys ← lift (sort_keys a);
  top ← for_M (take 10 (sort_values_desc keys (kept mask)))
              (λ i, for_M printed (row_getitem df i));
  mret (mkReport total_txn total_suspicious perc risk_level top).

(** ** The page of [main]

    The figures [main] shows once the pipeline has run, and the rows it
    offers for download.  The widgets and the charts are Streamlit's and
    are left out. *)

(** [s.mean()] of a numeric column *)
Definition Series_mean (s : Series) : result float64 :=
  match s with
  | STime _ => Raise Unmodelled
  | _ => l ← to_numeric s; Ok (mean_float l)
  end.

(** The three figures under "Key Metrics": [len(df)],
    [int(df['suspicious'].sum())] and
    [round(df['suspicious'].mean()*100, 2)]. *)
Definition key_metrics (df : positive) : M (nat * Z * float64) :=
  F ← frame df;
  s ← getitem df "suspicious";
  total ← lift (Series_sum s);
  s ← getitem df "suspicious";
  m ← lift (Series_mean s);
  mret (nrows F, total, float_round2 (float_mul m (Fin 100))).

(** [suspicious_df = df[df["suspicious"]==1]], by the labels of its rows:
    the rows of the CSV file. *)
Definition suspicious_df (df : positive) : M (list nat) :=
  s ← getitem df "suspicious";
  mask ← lift (Series_eq_scalar s 1);
  mret (kept mask).

(** ** The rows the generator makes *)

(** What a generated row looks like: a row of the main loop, and a row
    of the block injected for the sender [s]. *)
Definition drawn (base_time : Z) (t : Transaction) : Prop :=
  1000 ≤ sender_id t ≤ 9999 ∧ 1000 ≤ receiver_id t ≤ 9999
  ∧ (50 <= amount t)%Q ∧ (amount t <= 5000)%Q
  ∧ base_time - 50000 ≤ timestamp t ≤ base_time
  ∧ ∃ l, location t = Some l ∧ l ∈ places.

Definition structured (base_time s : Z) (t : Transaction) : Prop :=
  sender_id t = s ∧ 1000 ≤ receiver_id t ≤ 9999
  ∧ (100 <= amount t)%Q ∧ (amount t < 999)%Q
  ∧ base_time - 9 ≤ timestamp t ≤ base_time
  ∧ location t = Some "Nairobi"%string.

(** ** The report of a batch *)

(** The frame [F] has the columns of [rows] that the report prints and
    the verdicts [flags]. *)
Definition reported (rows : list Transaction) (flags : list Z) (F : DataFrame) : Prop :=
  nrows F = length rows ∧ length flags = length rows
  ∧ data F !! "suspicious" = Some (SInt flags)
  ∧ data F !! "transaction_id" = Some (SInt (transaction_id <$> rows))
  ∧ data F !! "sender_id" = Some (SInt (sender_id <$> rows))
  ∧ data F !! "receiver_id" = Some (SInt (receiver_id <$> rows))
  ∧ data F !! "amount" = Some (SFloat ((λ t, Fin (amount t)) <$> rows))
  ∧ data F !! "location" = Some (SObj (location <$> rows)).

(** The line of the table for a row. *)
Definition row_cells (t : Transaction) : list cell :=
  [int_cell (transaction_id t); int_cell (sender_id t); int_cell (receiver_id t);
   float_cell (Fin (amount t)); obj_cell (location t)].

(** The line of the table for the row with label [i]. *)
Definition line_of (rows : list Transaction) (i : nat) : list cell :=
  match rows !! i with
  | Some t => row_cells t
  | None => []
  end.

(** The labels of the rows of the table. *)
Definition top_labels (rows : list Transaction) (flags : list Z) : list nat :=
  take 10 (sort_values_desc ((λ t, Fin (amount t)) <$> rows)
                            (kept ((λ x, bool_decide (x = 1)) <$> flags))).

(** The percentage of the summary, for [s] suspicious rows out of [n]. *)
Definition percentage (s : Z) (n : nat) : Q :=
  round2 (inject_Z s / inject_Z (Z.of_nat n) * 100)%Q.

Definition risk_of (p : Q) : string :=
  if float_gt (Fin p) (Fin 5) then "High Risk"
  else if float_gt (Fin p) (Fin 2) then "Elevated"
  else "Low Risk".

(** The verdict of the pipeline on a row. *)
Definition verdict (sk : sklearn) (rows : list Transaction) (t : Transaction) : Z :=
  Z.max (rule_flag rows t) (ml_flag_of sk rows t).

(** The frame the pipeline leaves of a batch. *)
Definition scored (sk : sklearn) (rows : list Transaction) : DataFrame :=
  verdicts sk rows (pd_DataFrame rows).

(** A statement that reads only: it leaves the world as it found it. *)
Definition reads_only {A} (m : M A) : Prop := ∀ w, (m w).2 = w.

(** ** More example data *)

(** A stand-in for the two generators' draws: the position of the
    generator decides, and moves on by one. *)
Definition toy_random (s : RandomState) : Q * RandomState :=
  match s with
  | MT19937 key pos => ((pos `mod` 10) # 10, MT19937 key (pos + 1))
  end.

Definition toy_randbelow (n : Z) (s : RandomState) : Z * RandomState :=
  match s with
  | MT19937 key pos => (pos `mod` n, MT19937 key (pos + 1))
  end.

Lemma toy_random_range s :
  (0 <= (toy_random s).1)%Q ∧ ((toy_random s).1 < 1)%Q.
Proof.
  destruct s as [key pos]. simpl.
  pose proof (Z.mod_pos_bound pos 10 ltac:(lia)).
  unfold Qle, Qlt; simpl. lia.
Qed.

Lemma toy_randbelow_range n s : 0 < n → 0 ≤ (toy_randbelow n s).1 < n.
Proof. intros. destruct s as [key pos]. simpl. by apply Z.mod_pos_bound. Qed.

Definition toy_draws : draws :=
  mkDraws toy_random toy_randbelow toy_random_range toy_randbelow_range.

Definition toy_generators : generators :=
  mkGenerators (MT19937 [] 3) (MT19937 [] 1234).

(** A frame with the columns the report reads, and no row. *)
Definition no_rows : DataFrame :=
  {| nrows := 0;
     data := <["suspicious" := SInt []]> (<["amount" := SFloat []]> ∅) |}.

(** A frame with two columns, neither of them [amount]. *)
Definition no_amount : DataFrame :=
  {| nrows := 2;
     data := {[ "sender_id"%string := SInt [7; 8];
                "location"%string := SObj [Some "Nairobi"%string; None] ]} |}.

(** The sample batch with other identifiers, receivers and timestamps. *)
Definition relabelled : list Transaction :=
  (λ t, mkTransaction (1000 - transaction_id t) (sender_id t) 42 (amount t)
                      (transaction_id t) (location t)) <$> sample.

(** * Properties *)

(** ** The model at work *)

(** The pipeline on the sample batch, with the stand-in forest. *)
Example sample_run :
  (detect toy 1 (world_of sample)).1 = Ok 1%positive
  ∧ column 1 "rule_flagged" (detect toy 1 (world_of sample)).2
    = Some (SInt [1; 1; 1; 1; 0; 1; 1; 1; 1; 1; 1; 1; 1; 0; 0; 0; 0; 0; 1; 1; 1; 1; 1; 1])
  ∧ column 1 "ml_flagged" (detect toy 1 (world_of sample)).2
    = Some (SInt [0; 0; 0; 0; 0; 0; 0; 0; 0; 0; 0; 0; 0; 0; 0; 0; 0; 1; 0; 0; 0; 0; 0; 0])
  ∧ column 1 "suspicious" (detect toy 1 (world_of sample)).2
    = Some (SInt [1; 1; 1; 1; 0; 1; 1; 1; 1; 1; 1; 1; 1; 0; 0; 0; 0; 1; 1; 1; 1; 1; 1; 1]).
Proof. repeat split; vm_compute; reflexivity. Qed.

(** One indicator column per place, in sorted order (Garissa, Kisumu,
    Nairobi), the first one dropped; a missing place is in none. *)
Example sample_features :
  features [tx 1 7 500 "Nairobi"; tx 2 8 20 "Garissa"; tx 3 8 30 "Kisumu";
            mkTransaction 4 9 0 40 0 None]
  = [ [Fin 500; Fin 0; Fin 1]; [Fin 20; Fin 0; Fin 0]; [Fin 30; Fin 1; Fin 0];
      [Fin 40; Fin 0; Fin 0] ].
Proof. reflexivity. Qed.

Example percentile_10 : (np_percentile [3; 1; 2; 5; 4]%Q 10 == 14 # 10)%Q.
Proof. reflexivity. Qed.

Example percentile_single : (np_percentile [7]%Q 2 == 7)%Q.
Proof. reflexivity. Qed.

Example round_ties :
  py_round (1 # 2) = 0 ∧ py_round (3 # 2) = 2 ∧ py_round (5 # 2) = 2
  ∧ target 60 = 1 ∧ target 75 = 2 ∧ target 200 = 4.
Proof. repeat split; reflexivity. Qed.

(** ** Running the monad *)

Lemma bind_Ok {A B} (m : M A) (f : A → M B) w a w' :
  m w = (Ok a, w') → (m ≫= f) w = f a w'.
Proof. intros H. unfold mbind, M_bind. by rewrite H. Qed.

Lemma bind_Raise {A B} (m : M A) (f : A → M B) w e w' :
  m w = (Raise e, w') → (m ≫= f) w = (Raise e, w').
Proof. intros H. unfold mbind, M_bind. by rewrite H. Qed.

Lemma lift_Ok {A} (r : result A) a w : r = Ok a → lift r w = (Ok a, w).
Proof. by intros ->. Qed.

Lemma frame_Ok df w F : heap w !! df = Some F → frame df w = (Ok F, w).
Proof. intros H. unfold frame. by rewrite H. Qed.

Lemma getitem_Ok df k w F s :
  heap w !! df = Some F → data F !! k = Some s → getitem df k w = (Ok s, w).
Proof.
  intros HF Hk. unfold getitem.
  rewrite (bind_Ok _ _ _ _ _ (frame_Ok _ _ _ HF)). by rewrite Hk.
Qed.

Lemma setitem_Ok df k s w F :
  heap w !! df = Some F → Series_len s = nrows F →
  setitem df k s w = (Ok (), put df (upd k s F) w).
Proof.
  intros HF Hlen. unfold setitem.
  rewrite (bind_Ok _ _ _ _ _ (frame_Ok _ _ _ HF)).
  by rewrite decide_True.
Qed.

Lemma heap_put df F w : heap (put df F w) !! df = Some F.
Proof. apply lookup_insert_eq. Qed.

Lemma heap_put_ne df other F w : other ≠ df → heap (put df F w) !! other = heap w !! other.
Proof. intros. unfold put; simpl. by apply lookup_insert_ne. Qed.

Lemma put_put df F G w : put df G (put df F w) = put df G w.
Proof. unfold put; simpl. by rewrite insert_insert_eq. Qed.

Lemma data_upd_eq k s F : data (upd k s F) !! k = Some s.
Proof. apply lookup_insert_eq. Qed.

Lemma data_upd_ne k k' s F : k ≠ k' → data (upd k s F) !! k' = data F !! k'.
Proof. intros. by apply lookup_insert_ne. Qed.

Lemma upd_upd k s s' F : upd k s (upd k s' F) = upd k s F.
Proof. unfold upd; simpl. by rewrite insert_insert_eq. Qed.

Lemma upd_comm k k' s s' F : k ≠ k' → upd k s (upd k' s' F) = upd k' s' (upd k s F).
Proof. intros. unfold upd; simpl. f_equal. by apply insert_insert_ne. Qed.

Lemma holds_upd rows k s F :
  k ≠ "sender_id" → k ≠ "amount" → k ≠ "location" →
  holds rows F → holds rows (upd k s F).
Proof.
  intros ??? (Hn & Hs & Ha & Hl).
  repeat split; [done | rewrite data_upd_ne; done ..].
Qed.

Lemma holds_pd_DataFrame rows : holds rows (pd_DataFrame rows).
Proof. by repeat split. Qed.

Lemma setitem_scalar_Ok df k z w F :
  heap w !! df = Some F →
  setitem_scalar df k z w = (Ok (), put df (upd k (SInt (replicate (nrows F) z)) F) w).
Proof.
  intros HF. unfold setitem_scalar.
  rewrite (bind_Ok _ _ _ _ _ (frame_Ok _ _ _ HF)).
  apply setitem_Ok; [done | apply length_replicate].
Qed.

Lemma loc_setitem_Ok df k z w F m l :
  heap w !! df = Some F → data F !! k = Some (SInt l) →
  length m = length l → length l = nrows F →
  loc_setitem df (SBool m) k z w
  = (Ok (), put df (upd k (SInt (set_where z m l)) F) w).
Proof.
  intros HF Hk Hm Hl. unfold loc_setitem.
  rewrite (bind_Ok _ _ _ _ _ (frame_Ok _ _ _ HF)), Hk.
  rewrite decide_True by done.
  apply setitem_Ok; [done |]. simpl. unfold set_where.
  rewrite length_zip_with. lia.
Qed.

Lemma set_where_fmap {A} z (f : A → bool) (g : A → Z) (rows : list A) :
  set_where z (f <$> rows) (g <$> rows) = (λ t, if f t then z else g t) <$> rows.
Proof.
  unfold set_where.
  by rewrite zip_with_fmap_l, zip_with_fmap_r, zip_with_diag.
Qed.

Lemma groupby_Ok df by_ col agg w F keys vals s :
  heap w !! df = Some F →
  data F !! by_ = Some keys → data F !! col = Some vals →
  groupby_transform keys vals agg = Ok s →
  groupby df by_ col agg w = (Ok s, w).
Proof.
  intros HF Hk Hv Hs. unfold groupby.
  rewrite (bind_Ok _ _ _ _ _ (getitem_Ok _ _ _ _ _ HF Hk)).
  rewrite (bind_Ok _ _ _ _ _ (getitem_Ok _ _ _ _ _ HF Hv)).
  by apply lift_Ok.
Qed.

Lemma column_put df k F w : column df k (put df F w) = data F !! k.
Proof. unfold column. by rewrite heap_put. Qed.

Lemma at_put_int {A} df k i F w (f : A → Z) (rows : list A) t :
  data F !! k = Some (SInt (f <$> rows)) → rows !! i = Some t →
  at_ df k i (put df F w) = Some (int_cell (f t)).
Proof.
  intros Hk Ht. unfold at_. rewrite column_put, Hk. simpl.
  by rewrite list_lookup_fmap, Ht.
Qed.

Ltac step H := erewrite bind_Ok; [| H].

(** ** Columns computed row by row *)

Lemma Qltb_lt x y : Qltb x y = true ↔ (x < y)%Q.
Proof.
  unfold Qltb. rewrite negb_true_iff.
  split.
  - intros H. apply Qnot_le_lt. intros Hle.
    apply Qle_bool_iff in Hle. congruence.
  - intros H. destruct (Qle_bool y x) eqn:E; [|done].
    apply Qle_bool_iff in E. exfalso. by apply (Qlt_not_le x y).
Qed.

Lemma Qltb_decide x y : Qltb x y = bool_decide (x < y)%Q.
Proof.
  destruct (Qltb x y) eqn:E; symmetry.
  - apply bool_decide_eq_true. by apply Qltb_lt.
  - apply bool_decide_eq_false. intros H. apply Qltb_lt in H. congruence.
Qed.

Lemma group_of_fmap {A B} (f : A → Z) (g : A → B) (k : Z) (rows : list A) :
  group_of (f <$> rows) k (g <$> rows) = g <$> filter (λ t, f t = k) rows.
Proof.
  unfold group_of. induction rows as [|t rows IH]; [done|].
  simpl. rewrite !filter_cons. simpl.
  destruct (decide (f t = k)); simpl; [f_equal|]; exact IH.
Qed.

Lemma transform_fmap {A B C} (agg : list B → C) (f : A → Z) (g : A → B) rows :
  transform agg (f <$> rows) (g <$> rows)
  = (λ t, agg (g <$> filter (λ t', f t' = f t) rows)) <$> rows.
Proof.
  unfold transform. rewrite <- list_fmap_compose.
  apply list_fmap_ext. intros i t _. simpl. by rewrite group_of_fmap.
Qed.

Lemma sum_Z_cons x l : sum_Z (x :: l) = x + sum_Z l.
Proof. done. Qed.

Lemma sum_b2z_count {A} (P : A → Prop) `{∀ x, Decision (P x)} (l : list A) :
  sum_Z (Z.b2z <$> ((λ x, bool_decide (P x)) <$> l)) = Z.of_nat (length (filter P l)).
Proof.
  induction l as [|x l IH]; [done|].
  rewrite !fmap_cons, filter_cons, sum_Z_cons, IH.
  destruct (decide (P x)).
  - rewrite bool_decide_eq_true_2 by done. rewrite length_cons. simpl Z.b2z. lia.
  - rewrite bool_decide_eq_false_2 by done. simpl Z.b2z. lia.
Qed.

Lemma small_counts rows :
  transform (λ g, sum_Z (Z.b2z <$> g)) (sender_id <$> rows)
    ((λ t, bool_decide (small t)) <$> rows)
  = (λ t, Z.of_nat (small_count rows (sender_id t))) <$> rows.
Proof.
  rewrite transform_fmap. apply list_fmap_ext. intros i t _.
  by rewrite sum_b2z_count.
Qed.

Lemma small_column rows :
  Series_lt_scalar (SFloat ((λ t, Fin (amount t)) <$> rows)) 1000
  = Ok (SBool ((λ t, bool_decide (small t)) <$> rows)).
Proof.
  unfold Series_lt_scalar; simpl. do 2 f_equal.
  rewrite <- list_fmap_compose. apply list_fmap_ext.
  intros i t _. simpl. apply Qltb_decide.
Qed.

Lemma Qle_bool_inject (a b : Z) : Qle_bool (inject_Z a) (inject_Z b) = bool_decide (a ≤ b).
Proof.
  destruct (Qle_bool (inject_Z a) (inject_Z b)) eqn:E; symmetry.
  - apply bool_decide_eq_true. apply Qle_bool_iff in E. by rewrite <- Zle_Qle in E.
  - apply bool_decide_eq_false. intros H. rewrite Zle_Qle in H.
    apply Qle_bool_iff in H. congruence.
Qed.

Lemma structuring_column rows :
  Series_ge_scalar (SInt ((λ t, Z.of_nat (small_count rows (sender_id t))) <$> rows)) 5
  = Ok (SBool ((λ t, bool_decide (5 ≤ small_count rows (sender_id t))%nat) <$> rows)).
Proof.
  unfold Series_ge_scalar; simpl. do 2 f_equal.
  rewrite <- !list_fmap_compose. apply list_fmap_ext.
  intros i t _. simpl. change 5%Q with (inject_Z 5).
  rewrite Qle_bool_inject. apply bool_decide_ext. lia.
Qed.

Lemma and_columns {A} (f g : A → bool) (rows : list A) :
  Series_and (SBool (f <$> rows)) (SBool (g <$> rows))
  = Ok (SBool ((λ t, f t && g t) <$> rows)).
Proof.
  unfold Series_and. rewrite decide_True by (by rewrite !length_fmap).
  by rewrite zip_with_fmap_l, zip_with_fmap_r, zip_with_diag.
Qed.

Lemma finite_Fin {A} (f : A → Q) (l : list A) :
  finite ((λ t, Fin (f t)) <$> l) = f <$> l.
Proof.
  unfold finite. induction l as [|x l IH]; [done|].
  simpl. f_equal. exact IH.
Qed.

Lemma mean_float_Fin {A} (f : A → Q) (l : list A) :
  l ≠ [] →
  mean_float ((λ t, Fin (f t)) <$> l)
  = Fin (sum_Q (f <$> l) / inject_Z (Z.of_nat (length l))).
Proof.
  intros Hl. unfold mean_float. rewrite finite_Fin.
  destruct l as [|x l]; [done|]. by rewrite !fmap_cons, !length_cons, length_fmap.
Qed.

Lemma sent_by_own rows i t : rows !! i = Some t → t ∈ sent_by (sender_id t) rows.
Proof.
  intros H. apply list_elem_of_filter. split; [done|].
  by eapply list_elem_of_lookup_2.
Qed.

Lemma mean_column rows :
  groupby_transform (SInt (sender_id <$> rows))
    (SFloat ((λ t, Fin (amount t)) <$> rows)) agg_mean
  = Ok (SFloat ((λ t, Fin (mean_amount rows (sender_id t))) <$> rows)).
Proof.
  simpl. do 2 f_equal. rewrite transform_fmap. apply list_fmap_ext.
  intros i t Ht. rewrite mean_float_Fin; [done|].
  intros E. apply sent_by_own in Ht. unfold sent_by in Ht. rewrite E in Ht.
  by apply not_elem_of_nil in Ht.
Qed.

Lemma limit_column {A} (f : A → Q) (rows : list A) :
  Series_rmul 5 (SFloat ((λ t, Fin (f t)) <$> rows))
  = Ok (SFloat ((λ t, Fin (5 * f t)) <$> rows)).
Proof. simpl. by rewrite <- list_fmap_compose. Qed.

Lemma spike_column {A} (f g : A → Q) (rows : list A) :
  Series_gt (SFloat ((λ t, Fin (f t)) <$> rows)) (SFloat ((λ t, Fin (g t)) <$> rows))
  = Ok (SBool ((λ t, bool_decide (g t < f t)%Q) <$> rows)).
Proof.
  unfold Series_gt; simpl. rewrite decide_True by (by rewrite !length_fmap).
  rewrite zip_with_fmap_l, zip_with_fmap_r, zip_with_diag.
  do 2 f_equal. apply list_fmap_ext. intros i t _. apply Qltb_decide.
Qed.

Lemma replicate_fmap {A B} (x : B) (l : list A) :
  replicate (length l) x = (λ _, x) <$> l.
Proof. induction l; simpl; by f_equal. Qed.

(** ** What [apply_rules] does to a batch *)

Lemma rule1_run rows df w F g :
  heap w !! df = Some F → holds rows F →
  data F !! "rule_flagged" = Some (SInt (g <$> rows)) →
  rule1 df w
  = (Ok (),
     put df (upd "rule_flagged" (SInt ((λ t, if fires1 rows t then 1 else g t) <$> rows))
               (upd "small_txn" (SBool ((λ t, bool_decide (small t)) <$> rows)) F)) w).
Proof.
  intros HF (Hn & Hs & Ha & Hl) Hg. unfold rule1.
  step ltac:(eapply getitem_Ok; eassumption).
  step ltac:(apply lift_Ok, small_column).
  step ltac:(apply setitem_Ok; [eassumption | by rewrite Hn; simpl; rewrite length_fmap]).
  step ltac:(eapply groupby_Ok;
               [apply heap_put
               | rewrite data_upd_ne by done; eassumption
               | apply data_upd_eq
               | simpl; by rewrite small_counts]).
  step ltac:(apply lift_Ok, structuring_column).
  step ltac:(eapply getitem_Ok; [apply heap_put | apply data_upd_eq]).
  step ltac:(apply lift_Ok, and_columns).
  erewrite loc_setitem_Ok;
    [| apply heap_put | rewrite data_upd_ne by done; eassumption
     | by rewrite !length_fmap | by rewrite length_fmap ].
  by rewrite put_put, set_where_fmap.
Qed.

Lemma rule2_run rows df w F g :
  heap w !! df = Some F → holds rows F →
  data F !! "rule_flagged" = Some (SInt (g <$> rows)) →
  rule2 df w
  = (Ok (),
     put df (upd "rule_flagged" (SInt ((λ t, if fires2 t then 1 else g t) <$> rows)) F) w).
Proof.
  intros HF (Hn & Hs & Ha & Hl) Hg. unfold rule2.
  step ltac:(eapply getitem_Ok; eassumption).
  unfold Series_isin. rewrite <- list_fmap_compose.
  erewrite loc_setitem_Ok;
    [| eassumption | eassumption | by rewrite !length_fmap | by rewrite length_fmap ].
  by rewrite set_where_fmap.
Qed.

Lemma rule3_run rows df w F g :
  heap w !! df = Some F → holds rows F →
  data F !! "rule_flagged" = Some (SInt (g <$> rows)) →
  rule3 df w
  = (Ok (),
     put df (upd "rule_flagged" (SInt ((λ t, if fires3 rows t then 1 else g t) <$> rows)) F) w).
Proof.
  intros HF (Hn & Hs & Ha & Hl) Hg. unfold rule3.
  step ltac:(eapply groupby_Ok; [eassumption .. | apply mean_column]).
  step ltac:(eapply getitem_Ok; eassumption).
  step ltac:(apply lift_Ok, limit_column).
  step ltac:(apply lift_Ok, spike_column).
  erewrite loc_setitem_Ok;
    [| eassumption | eassumption | by rewrite !length_fmap | by rewrite length_fmap ].
  by rewrite set_where_fmap.
Qed.

Lemma apply_rules_run rows df w F :
  heap w !! df = Some F → holds rows F →
  apply_rules df w = (Ok df, put df (after_rules rows F) w).
Proof.
  intros HF HB. unfold apply_rules.
  step ltac:(apply setitem_scalar_Ok; eassumption).
  destruct HB as (Hn & HB). rewrite Hn, (replicate_fmap 0 rows).
  assert (HB' : holds rows F) by (by split).
  step ltac:(eapply rule1_run;
               [apply heap_put | by apply holds_upd | apply data_upd_eq]).
  rewrite put_put.
  step ltac:(eapply rule2_run;
               [apply heap_put | by repeat apply holds_upd | apply data_upd_eq]).
  rewrite put_put, upd_upd.
  step ltac:(eapply rule3_run;
               [apply heap_put | by repeat apply holds_upd | apply data_upd_eq]).
  rewrite put_put, upd_upd.
  unfold after_rules, rule_flag.
  rewrite (upd_comm "small_txn" "rule_flagged") by done.
  by rewrite upd_upd.
Qed.

Lemma rule1_alone_run rows df w F :
  heap w !! df = Some F → holds rows F →
  rule_alone rule1 df w
  = (Ok (),
     put df (upd "rule_flagged" (SInt ((λ t, if fires1 rows t then 1 else 0) <$> rows))
               (upd "small_txn" (SBool ((λ t, bool_decide (small t)) <$> rows))
                  (upd "rule_flagged" (SInt ((λ _, 0) <$> rows)) F))) w).
Proof.
  intros HF HB. unfold rule_alone.
  erewrite bind_Ok; [| apply setitem_scalar_Ok; eassumption].
  destruct HB as (Hn & HB). rewrite Hn, (replicate_fmap 0 rows).
  assert (HB' : holds rows F) by (by split).
  erewrite rule1_run; [| apply heap_put | by apply holds_upd | apply data_upd_eq].
  by rewrite put_put.
Qed.


Lemma rule_flag_fires rows t :
  rule_flag rows t = Z.b2z (fires1 rows t || fires2 t || fires3 rows t).
Proof. unfold rule_flag. by destruct (fires3 rows t), (fires2 t), (fires1 rows t). Qed.

Lemma holds_after_rules rows F : holds rows F → holds rows (after_rules rows F).
Proof. intros. unfold after_rules. by repeat apply holds_upd. Qed.

Lemma after_rules_other rows F k :
  k ∉ written → data (after_rules rows F) !! k = data F !! k.
Proof.
  intros Hk. unfold after_rules, written in *.
  rewrite !data_upd_ne; [done | set_solver ..].
Qed.

(** ** What [apply_ml] does to a batch *)

Lemma to_array_columns {A} (fs : list (A → float64)) (rows : list A) :
  to_array (length rows) ((λ f, f <$> rows) <$> fs)
  = (λ t, (λ f, f t) <$> fs) <$> rows.
Proof.
  unfold to_array. apply list_eq. intros i.
  rewrite !list_lookup_fmap.
  destruct (rows !! i) as [t|] eqn:Ht; simpl.
  - rewrite lookup_seq_lt by (by eapply lookup_lt_Some). simpl. f_equal.
    rewrite <- list_fmap_compose. apply list_fmap_ext. intros j f _. simpl.
    apply nth_lookup_Some. by rewrite list_lookup_fmap, Ht.
  - rewrite lookup_seq_ge; [done|]. by apply lookup_ge_None.
Qed.

Lemma get_dummies_rows rows :
  get_dummies [SFloat ((λ t, Fin (amount t)) <$> rows); SObj (location <$> rows)]
  = Ok (feature_columns rows).
Proof. simpl. by rewrite app_nil_r. Qed.

Lemma to_array_features rows :
  to_array (length rows) (feature_columns rows) = features rows.
Proof.
  unfold feature_columns.
  set (cats := tail (categories (location <$> rows))).
  pose (fs := (λ t, Fin (amount t)) :: ((λ c t, indicator c (location t)) <$> cats)).
  transitivity (to_array (length rows) ((λ f : Transaction → float64, f <$> rows) <$> fs)).
  - f_equal. unfold fs. rewrite fmap_cons. f_equal.
    rewrite <- list_fmap_compose. apply list_fmap_ext. intros i c _. simpl.
    by rewrite <- list_fmap_compose.
  - rewrite to_array_columns. unfold features, feature_row, fs.
    apply list_fmap_ext. intros i t _. rewrite fmap_cons. f_equal.
    by rewrite <- list_fmap_compose.
Qed.

Section Anomaly.

Context (sk : sklearn).

Lemma fit_predict_run rows w :
  rows ≠ [] →
  fit_predict sk {| contamination := 2 # 100; random_state := Some 42 |} (features rows) w
  = (Ok ((λ s, if outlier sk rows s then -1 else 1) <$> scores sk rows), w).
Proof.
  intros Hne. unfold fit_predict.
  cbn [contamination random_state].
  change (negb (Qltb 0 (2 # 100) && Qle_bool (2 # 100) (1 # 2))) with false.
  cbn iota.
  destruct (features rows) as [|x X] eqn:E.
  - destruct rows; [done|]. discriminate E.
  - rewrite <- E. clear E x X. reflexivity.
Qed.

Lemma fit_predict_empty iso w :
  fit_predict sk iso [] w = (Raise ValueError, w).
Proof. unfold fit_predict. by destruct (negb _). Qed.

Lemma map_labels (f : Q → bool) (l : list Q) :
  Series_map (SInt ((λ s, if f s then -1 else 1) <$> l)) {[ 1 := 0; -1 := 1 ]}
  = Ok (SInt ((λ s, if f s then 1 else 0) <$> l)).
Proof.
  unfold Series_map.
  assert (H : mapM (λ x, ({[ 1 := 0; -1 := 1 ]} : gmap Z Z) !! x)
                ((λ s, if f s then -1 else 1) <$> l)
              = Some ((λ s, if f s then 1 else 0) <$> l)).
  { induction l as [|s l IH]; [done|].
    rewrite !fmap_cons. simpl. simpl in IH. rewrite IH.
    by destruct (f s). }
  by rewrite H.
Qed.

Lemma length_scores rows : length (scores sk rows) = length rows.
Proof. unfold scores, features. by rewrite !length_fmap. Qed.

Lemma apply_ml_run rows df w F g :
  rows ≠ [] →
  heap w !! df = Some F → holds rows F →
  data F !! "rule_flagged" = Some (SInt (g <$> rows)) →
  apply_ml sk df w = (Ok df, put df (after_ml sk rows g F) w).
Proof.
  intros Hne HF (Hn & Hs & Ha & Hl) Hg. unfold apply_ml.
  step ltac:(eapply getitem_Ok; eassumption).
  step ltac:(eapply getitem_Ok; eassumption).
  step ltac:(eapply frame_Ok; eassumption).
  step ltac:(apply lift_Ok, get_dummies_rows).
  rewrite Hn, to_array_features.
  step ltac:(by apply fit_predict_run).
  step ltac:(apply setitem_Ok; [eassumption | by rewrite Hn; simpl; rewrite length_fmap, length_scores]).
  step ltac:(eapply getitem_Ok; [apply heap_put | apply data_upd_eq]).
  step ltac:(apply lift_Ok, map_labels).
  step ltac:(apply setitem_Ok; [apply heap_put | by simpl; rewrite Hn, length_fmap, length_scores]).
  rewrite put_put, upd_upd.
  step ltac:(eapply getitem_Ok; [apply heap_put | rewrite data_upd_ne by done; eassumption]).
  step ltac:(eapply getitem_Ok; [apply heap_put | apply data_upd_eq]).
  step ltac:(apply lift_Ok; reflexivity).
  step ltac:(apply setitem_Ok; [apply heap_put | by simpl; rewrite Hn, length_zip_with, !length_fmap, length_scores; lia]).
  by rewrite put_put.
Qed.

Lemma apply_ml_empty df w F :
  heap w !! df = Some F → holds [] F →
  apply_ml sk df w = (Raise ValueError, w).
Proof.
  intros HF (Hn & Hs & Ha & Hl). unfold apply_ml.
  step ltac:(eapply getitem_Ok; eassumption).
  step ltac:(eapply getitem_Ok; eassumption).
  step ltac:(eapply frame_Ok; eassumption).
  step ltac:(apply lift_Ok, get_dummies_rows).
  rewrite Hn. simpl length. erewrite bind_Raise; [done|].
  apply fit_predict_empty.
Qed.

Lemma ml_flags_rows rows :
  ml_flag sk rows <$> scores sk rows = ml_flag_of sk rows <$> rows.
Proof. unfold scores, features. by rewrite <- !list_fmap_compose. Qed.

Lemma detect_run rows df w F :
  rows ≠ [] → heap w !! df = Some F → holds rows F →
  detect sk df w = (Ok df, put df (verdicts sk rows F) w).
Proof.
  intros Hne HF HB. unfold detect.
  erewrite bind_Ok; [| by apply apply_rules_run].
  erewrite apply_ml_run;
    [| done | apply heap_put | by apply holds_after_rules | apply data_upd_eq].
  rewrite put_put. unfold after_ml, verdicts.
  by rewrite ml_flags_rows, zip_with_fmap_l, zip_with_fmap_r, zip_with_diag.
Qed.

Lemma detect_empty df w F :
  heap w !! df = Some F → holds [] F →
  detect sk df w = (Raise ValueError, put df (after_rules [] F) w).
Proof.
  intros HF HB. unfold detect.
  erewrite bind_Ok; [| by apply apply_rules_run].
  eapply apply_ml_empty; [apply heap_put | by apply holds_after_rules].
Qed.

End Anomaly.

Lemma verdicts_rule_flagged sk rows F :
  data (verdicts sk rows F) !! "rule_flagged" = Some (SInt (rule_flag rows <$> rows)).
Proof. unfold verdicts. rewrite !data_upd_ne by done. apply data_upd_eq. Qed.

Lemma verdicts_ml_flagged sk rows F :
  data (verdicts sk rows F) !! "ml_flagged" = Some (SInt (ml_flag_of sk rows <$> rows)).
Proof. unfold verdicts. rewrite data_upd_ne by done. apply data_upd_eq. Qed.

Lemma verdicts_suspicious sk rows F :
  data (verdicts sk rows F) !! "suspicious"
  = Some (SInt ((λ t, Z.max (rule_flag rows t) (ml_flag_of sk rows t)) <$> rows)).
Proof. apply data_upd_eq. Qed.

Lemma verdicts_other sk rows F k :
  k ∉ written → data (verdicts sk rows F) !! k = data F !! k.
Proof.
  intros Hk. unfold verdicts.
  rewrite !data_upd_ne by (unfold written in Hk; set_solver).
  by apply after_rules_other.
Qed.

Lemma rule_flag_b2z rows t : ∃ r : bool, rule_flag rows t = Z.b2z r.
Proof. eexists. apply rule_flag_fires. Qed.

Lemma ml_flag_b2z sk rows t : ∃ m : bool, ml_flag_of sk rows t = Z.b2z m.
Proof.
  unfold ml_flag_of, ml_flag.
  match goal with |- context [outlier ?a ?b ?c] => exists (outlier a b c); by destruct (outlier a b c) end.
Qed.

Lemma max_b2z (r m : bool) : Z.max (Z.b2z r) (Z.b2z m) = Z.b2z (r || m).
Proof. by destruct r, m. Qed.

Lemma nonempty_lookup {A} (l : list A) i x : l !! i = Some x → l ≠ [].
Proof. by intros H ->. Qed.

(** ** The rules *)

Lemma fires1_true rows t :
  (5 ≤ small_count rows (sender_id t))%nat → small t → fires1 rows t = true.
Proof.
  intros Hc Hs. unfold fires1.
  by rewrite !bool_decide_eq_true_2.
Qed.

Lemma fires1_large rows t : (1000 <= amount t)%Q → fires1 rows t = false.
Proof.
  intros H. unfold fires1. rewrite (bool_decide_eq_false_2 (small t)).
  - apply andb_false_r.
  - unfold small. by apply Qle_not_lt.
Qed.

Lemma fires1_few rows t : (small_count rows (sender_id t) < 5)%nat → fires1 rows t = false.
Proof.
  intros H. unfold fires1. rewrite bool_decide_eq_false_2; [done | lia].
Qed.

(** C1. Rule 1 (structuring).  For a transaction [t] of the batch: when
    its sender has at least 5 small transactions (amount < 1000) and [t]
    is one of them, [apply_rules] leaves [rule_flagged] = 1 on it, and so
    does rule 1 on its own; rule 1 on its own leaves 0 on a transaction
    of amount >= 1000, whoever sent it, and on every transaction of a
    sender with exactly 4 small transactions. *)
Theorem rule1_structuring rows df w i t :
  heap w !! df = Some (pd_DataFrame rows) → rows !! i = Some t →
  (∃ w', apply_rules df w = (Ok df, w')
     ∧ ((5 ≤ small_count rows (sender_id t))%nat → small t →
        at_ df "rule_flagged" i w' = Some (int_cell 1)))
  ∧ (∃ w1, rule_alone rule1 df w = (Ok (), w1)
     ∧ ((5 ≤ small_count rows (sender_id t))%nat → small t →
        at_ df "rule_flagged" i w1 = Some (int_cell 1))
     ∧ ((1000 <= amount t)%Q →
        at_ df "rule_flagged" i w1 = Some (int_cell 0))
     ∧ (small_count rows (sender_id t) = 4%nat →
        at_ df "rule_flagged" i w1 = Some (int_cell 0))).
Proof.
  intros HF Ht. split.
  - eexists. split; [apply apply_rules_run; [done | apply holds_pd_DataFrame]|].
    intros Hc Hs.
    erewrite at_put_int; [| apply data_upd_eq | done].
    by rewrite rule_flag_fires, fires1_true.
  - eexists. split; [apply rule1_alone_run; [done | apply holds_pd_DataFrame]|].
    split; [|split].
    + intros Hc Hs. erewrite at_put_int; [| apply data_upd_eq | done].
      cbv beta. by rewrite fires1_true.
    + intros Hl. erewrite at_put_int; [| apply data_upd_eq | done].
      cbv beta. by rewrite fires1_large.
    + intros Hc. erewrite at_put_int; [| apply data_upd_eq | done].
      cbv beta. rewrite fires1_few; [done | lia].
Qed.

(** On the sample batch: the first transfer of sender 7 is flagged; rule
    1 on its own flags it, and flags neither the transfer of 1500 of
    sender 7 nor the first transfer of sender 9. *)
Lemma rule1_structuring_witness :
  (∃ w', apply_rules 1 (world_of sample) = (Ok 1%positive, w')
     ∧ at_ 1 "rule_flagged" 0 w' = Some (int_cell 1))
  ∧ (∃ w1, rule_alone rule1 1 (world_of sample) = (Ok (), w1)
     ∧ at_ 1 "rule_flagged" 0 w1 = Some (int_cell 1)
     ∧ at_ 1 "rule_flagged" 4 w1 = Some (int_cell 0)
     ∧ at_ 1 "rule_flagged" 13 w1 = Some (int_cell 0)).
Proof.
  destruct (rule1_structuring sample 1 (world_of sample) 0 (tx 1 7 500 "Nairobi")
              eq_refl eq_refl) as [(w' & Hr & Hf) (w1 & Hr1 & Ha & _ & _)].
  destruct (rule1_structuring sample 1 (world_of sample) 4 (tx 5 7 1500 "Nairobi")
              eq_refl eq_refl) as [_ (w2 & Hr2 & _ & Hb & _)].
  destruct (rule1_structuring sample 1 (world_of sample) 13 (tx 14 9 100 "Mombasa")
              eq_refl eq_refl) as [_ (w3 & Hr3 & _ & _ & Hc)].
  split.
  - exists w'. split; [exact Hr|]. apply Hf; [vm_compute; lia | reflexivity].
  - exists w1. split; [exact Hr1|]. split; [|split].
    + apply Ha; [vm_compute; lia | reflexivity].
    + assert (w1 = w2) as -> by congruence. apply Hb. discriminate.
    + assert (w1 = w3) as -> by congruence. apply Hc. reflexivity.
Defined.

Lemma fires2_true t x :
  location t = Some x → x = "Offshore"%string ∨ x = "Garissa"%string → fires2 t = true.
Proof.
  intros Hl Hx. unfold fires2. rewrite Hl. apply bool_decide_eq_true.
  unfold high_risk. destruct Hx as [-> | ->]; set_solver.
Qed.

(** C3. Rule 2 (high-risk locations).  A transaction whose location is
    "Offshore" or "Garissa" has [rule_flagged] = 1 when [apply_rules]
    returns, and still when the whole pipeline returns, whatever its
    amount and sender and whatever the other rules and the forest say. *)
Theorem rule2_high_risk sk rows df w i t x :
  heap w !! df = Some (pd_DataFrame rows) → rows !! i = Some t →
  location t = Some x → x = "Offshore"%string ∨ x = "Garissa"%string →
  (∃ w', apply_rules df w = (Ok df, w')
     ∧ at_ df "rule_flagged" i w' = Some (int_cell 1))
  ∧ (∃ w', detect sk df w = (Ok df, w')
     ∧ at_ df "rule_flagged" i w' = Some (int_cell 1)).
Proof.
  intros HF Ht Hl Hx. split.
  - eexists. split; [apply apply_rules_run; [done | apply holds_pd_DataFrame]|].
    erewrite at_put_int; [| apply data_upd_eq | done].
    rewrite rule_flag_fires, (fires2_true t x) by done.
    by rewrite orb_true_r.
  - eexists. split.
    { apply (detect_run sk rows); [by intros -> | done | apply holds_pd_DataFrame]. }
    erewrite at_put_int; [| apply verdicts_rule_flagged | done].
    rewrite rule_flag_fires, (fires2_true t x) by done.
    by rewrite orb_true_r.
Qed.

(** On the sample batch: the transfer from Garissa is flagged. *)
Lemma rule2_high_risk_witness :
  (∃ w', apply_rules 1 (world_of sample) = (Ok 1%positive, w')
     ∧ at_ 1 "rule_flagged" 5 w' = Some (int_cell 1))
  ∧ (∃ w', detect toy 1 (world_of sample) = (Ok 1%positive, w')
     ∧ at_ 1 "rule_flagged" 5 w' = Some (int_cell 1)).
Proof.
  apply (rule2_high_risk toy sample 1 (world_of sample) 5 (tx 6 7 999 "Garissa") "Garissa");
    [reflexivity | reflexivity | reflexivity | right; reflexivity].
Defined.




(** ** The verdicts *)

(** C4. The verdict combiner.  When the pipeline returns, every
    transaction of the batch has a rule flag [r] and a forest flag [m],
    each 0 or 1, and its [suspicious] cell is their disjunction; it is 0
    when both are 0. *)
Theorem suspicious_is_or sk rows df w i t :
  heap w !! df = Some (pd_DataFrame rows) → rows !! i = Some t →
  ∃ w' (r m : bool),
    detect sk df w = (Ok df, w')
    ∧ at_ df "rule_flagged" i w' = Some (int_cell (Z.b2z r))
    ∧ at_ df "ml_flagged" i w' = Some (int_cell (Z.b2z m))
    ∧ at_ df "suspicious" i w' = Some (int_cell (Z.b2z (r || m)))
    ∧ (r = false → m = false → at_ df "suspicious" i w' = Some (int_cell 0)).
Proof.
  intros HF Ht.
  destruct (rule_flag_b2z rows t) as [r Hr].
  destruct (ml_flag_b2z sk rows t) as [m Hm].
  eexists _, r, m. split.
  { apply (detect_run sk rows);
      [by eapply nonempty_lookup | done | apply holds_pd_DataFrame]. }
  erewrite !at_put_int;
    [| apply verdicts_suspicious | done | apply verdicts_ml_flagged | done
     | apply verdicts_rule_flagged | done ].
  cbv beta. rewrite Hr, Hm, max_b2z.
  repeat split. by intros -> ->.
Qed.

(** On the sample batch, for the only transfer of sender 10. *)
Lemma suspicious_is_or_witness :
  ∃ w' (r m : bool),
    detect toy 1 (world_of sample) = (Ok 1%positive, w')
    ∧ at_ 1 "rule_flagged" 17 w' = Some (int_cell (Z.b2z r))
    ∧ at_ 1 "ml_flagged" 17 w' = Some (int_cell (Z.b2z m))
    ∧ at_ 1 "suspicious" 17 w' = Some (int_cell (Z.b2z (r || m)))
    ∧ (r = false → m = false → at_ 1 "suspicious" 17 w' = Some (int_cell 0)).
Proof.
  apply (suspicious_is_or toy sample 1 (world_of sample) 17 (tx 18 10 4000 "Nairobi"));
    reflexivity.
Defined.

(** C10. The flag domain.  When the pipeline returns, every transaction
    of the batch has a cell in each of [rule_flagged], [ml_flagged] and
    [suspicious], holding the integer 0 or 1; [suspicious] is the maximum
    of the other two, which on such values is their bitwise or. *)
Theorem flags_are_bits sk rows df w i t :
  heap w !! df = Some (pd_DataFrame rows) → rows !! i = Some t →
  ∃ w' (r m s : Z),
    detect sk df w = (Ok df, w')
    ∧ at_ df "rule_flagged" i w' = Some (int_cell r)
    ∧ at_ df "ml_flagged" i w' = Some (int_cell m)
    ∧ at_ df "suspicious" i w' = Some (int_cell s)
    ∧ (r = 0 ∨ r = 1) ∧ (m = 0 ∨ m = 1) ∧ (s = 0 ∨ s = 1)
    ∧ s = Z.max r m ∧ Z.max r m = Z.lor r m.
Proof.
  intros HF Ht.
  destruct (rule_flag_b2z rows t) as [r Hr].
  destruct (ml_flag_b2z sk rows t) as [m Hm].
  eexists _, _, _, _. split.
  { apply (detect_run sk rows);
      [by eapply nonempty_lookup | done | apply holds_pd_DataFrame]. }
  erewrite !at_put_int;
    [| apply verdicts_suspicious | done | apply verdicts_ml_flagged | done
     | apply verdicts_rule_flagged | done ].
  cbv beta. rewrite Hr, Hm.
  repeat split; destruct r, m; simpl; auto.
Qed.

(** On the sample batch, for its first transfer. *)
Lemma flags_are_bits_witness :
  ∃ w' (r m s : Z),
    detect toy 1 (world_of sample) = (Ok 1%positive, w')
    ∧ at_ 1 "rule_flagged" 0 w' = Some (int_cell r)
    ∧ at_ 1 "ml_flagged" 0 w' = Some (int_cell m)
    ∧ at_ 1 "suspicious" 0 w' = Some (int_cell s)
    ∧ (r = 0 ∨ r = 1) ∧ (m = 0 ∨ m = 1) ∧ (s = 0 ∨ s = 1)
    ∧ s = Z.max r m ∧ Z.max r m = Z.lor r m.
Proof.
  apply (flags_are_bits toy sample 1 (world_of sample) 0 (tx 1 7 500 "Nairobi"));
    reflexivity.
Defined.

(** ** What the pipeline changes and what it leaves alone *)

(** C7 fails on the sample batch: the frame handed to [apply_rules] has
    no [rule_flagged] column before the call and has one after it, and
    the reference returned is the one that was given. *)
Lemma apply_rules_in_place :
  column 1 "rule_flagged" (world_of sample) = None
  ∧ ∃ w', apply_rules 1 (world_of sample) = (Ok 1%positive, w')
      ∧ is_Some (column 1 "rule_flagged" w')
      ∧ heap w' !! 1%positive ≠ heap (world_of sample) !! 1%positive.
Proof.
  split; [reflexivity|]. eexists. split.
  { apply (apply_rules_run sample); [reflexivity | apply holds_pd_DataFrame]. }
  split.
  - rewrite column_put. unfold after_rules. by rewrite data_upd_eq.
  - intros E.
    assert (H : column 1 "rule_flagged" (put 1 (after_rules sample (pd_DataFrame sample))
                                           (world_of sample))
                = column 1 "rule_flagged" (world_of sample))
      by (unfold column; by rewrite E).
    rewrite column_put in H. unfold after_rules in H. rewrite data_upd_eq in H.
    discriminate H.
Qed.

(** C7, as the code has it.  The pipeline works in place: [apply_rules]
    and [detect] return the reference they were given, and the frame
    behind it has kept its number of rows and every column but
    [rule_flagged], [small_txn], [ml_flagged] and [suspicious] (so the
    six columns of the batch are as they were); no other frame and not
    numpy's global generator has changed.  The flags are columns of that
    same frame. *)
Theorem pipeline_frame sk rows df w F :
  heap w !! df = Some F → holds rows F → rows ≠ [] →
  (∃ w' F', apply_rules df w = (Ok df, w')
     ∧ heap w' !! df = Some F' ∧ nrows F' = nrows F
     ∧ (∀ k, k ∉ written → data F' !! k = data F !! k)
     ∧ (∀ other, other ≠ df → heap w' !! other = heap w !! other)
     ∧ np_random w' = np_random w
     ∧ is_Some (data F' !! "rule_flagged"))
  ∧ (∃ w' F', detect sk df w = (Ok df, w')
     ∧ heap w' !! df = Some F' ∧ nrows F' = nrows F
     ∧ (∀ k, k ∉ written → data F' !! k = data F !! k)
     ∧ (∀ other, other ≠ df → heap w' !! other = heap w !! other)
     ∧ np_random w' = np_random w
     ∧ is_Some (data F' !! "rule_flagged")
     ∧ is_Some (data F' !! "ml_flagged")
     ∧ is_Some (data F' !! "suspicious")).
Proof.
  intros HF HB Hne. split.
  - eexists _, _. split; [by apply apply_rules_run|].
    split; [apply heap_put|]. split; [done|].
    split; [intros; by apply after_rules_other|].
    split; [intros; by apply heap_put_ne|]. split; [done|].
    unfold after_rules. by rewrite data_upd_eq.
  - eexists _, _. split; [by apply (detect_run sk rows)|].
    split; [apply heap_put|]. split; [done|].
    split; [intros; by apply verdicts_other|].
    split; [intros; by apply heap_put_ne|]. split; [done|].
    by rewrite verdicts_rule_flagged, verdicts_ml_flagged, verdicts_suspicious.
Qed.

(** On the sample batch: the amounts and the identifiers are as they
    were when the pipeline returns. *)
Lemma pipeline_frame_witness :
  ∃ w', detect toy 1 (world_of sample) = (Ok 1%positive, w')
    ∧ column 1 "amount" w' = column 1 "amount" (world_of sample)
    ∧ column 1 "transaction_id" w' = column 1 "transaction_id" (world_of sample)
    ∧ np_random w' = np_random (world_of sample).
Proof.
  assert (Ha : "amount"%string ∉ written) by (by apply (bool_decide_unpack _)).
  assert (Hi : "transaction_id"%string ∉ written) by (by apply (bool_decide_unpack _)).
  destruct (pipeline_frame toy sample 1 (world_of sample) (pd_DataFrame sample)
              eq_refl (holds_pd_DataFrame sample) ltac:(discriminate))
    as [_ (w' & F' & Hr & HF & _ & Hk & _ & Hrng & _)].
  exists w'. split; [exact Hr|].
  unfold column. rewrite HF. simpl.
  rewrite (Hk "amount"%string Ha), (Hk "transaction_id"%string Hi).
  split; [reflexivity|]. split; [reflexivity | exact Hrng].
Defined.

(** ** Batches the specification rules out *)

(** C8 fails: on the empty batch no forest makes the pipeline return. *)
Lemma empty_batch_raises :
  ¬ ∃ sk r w', detect sk 1 (world_of []) = (Ok r, w').
Proof.
  intros (sk & r & w' & H).
  rewrite (detect_empty sk 1 (world_of []) (pd_DataFrame [])) in H;
    [discriminate | reflexivity | apply holds_pd_DataFrame].
Qed.

(** C8, as the code has it.  On an empty batch [apply_rules] returns the
    frame with an empty [rule_flagged] column, and the anomaly stage
    raises [ValueError], the forest refusing to be fitted on no sample:
    the pipeline returns no verdict, and the frame has no [ml_flagged] or
    [suspicious] column. *)
Theorem empty_batch sk df w :
  heap w !! df = Some (pd_DataFrame []) →
  (∃ w1, apply_rules df w = (Ok df, w1)
     ∧ column df "rule_flagged" w1 = Some (SInt []))
  ∧ (∃ w', detect sk df w = (Raise ValueError, w')
     ∧ column df "ml_flagged" w' = None
     ∧ column df "suspicious" w' = None).
Proof.
  intros HF. split.
  - eexists. split; [apply (apply_rules_run []); [done | apply holds_pd_DataFrame]|].
    by rewrite column_put.
  - eexists. split; [apply detect_empty; [done | apply holds_pd_DataFrame]|].
    by rewrite !column_put.
Qed.

(** On the empty batch, with the stand-in forest. *)
Lemma empty_batch_witness :
  (∃ w1, apply_rules 1 (world_of []) = (Ok 1%positive, w1)
     ∧ column 1 "rule_flagged" w1 = Some (SInt []))
  ∧ (∃ w', detect toy 1 (world_of []) = (Raise ValueError, w')
     ∧ column 1 "ml_flagged" w' = None
     ∧ column 1 "suspicious" w' = None).
Proof. apply (empty_batch toy 1 (world_of [])). reflexivity. Defined.

(** C9 fails on a batch whose only transaction has a negative amount and
    no location: no forest makes the pipeline raise, and with the
    stand-in forest the transaction comes out suspicious. *)
Lemma malformed_batch_scored :
  ¬ (∃ sk e w', detect sk 1 (world_of malformed) = (Raise e, w'))
  ∧ ∃ w', detect toy 1 (world_of malformed) = (Ok 1%positive, w')
      ∧ column 1 "suspicious" w' = Some (SInt [1]).
Proof.
  split.
  - intros (sk & e & w' & H).
    rewrite (detect_run sk malformed 1 (world_of malformed) (pd_DataFrame malformed)) in H;
      [discriminate | discriminate | reflexivity | apply holds_pd_DataFrame].
  - eexists. split.
    { apply (detect_run toy malformed); [discriminate | reflexivity | apply holds_pd_DataFrame]. }
    rewrite column_put, verdicts_suspicious. reflexivity.
Qed.

(** C9, as the code has it.  The pipeline checks no transaction: on a
    batch that is not empty it raises no error, whatever the amounts
    (positive or not) and the locations (present or missing), and gives
    every transaction a verdict. *)
Theorem no_validation sk rows df w :
  heap w !! df = Some (pd_DataFrame rows) → rows ≠ [] →
  ∃ w', detect sk df w = (Ok df, w')
    ∧ ∀ i t, rows !! i = Some t →
        ∃ s, at_ df "suspicious" i w' = Some (int_cell s) ∧ (s = 0 ∨ s = 1).
Proof.
  intros HF Hne. eexists. split.
  { apply (detect_run sk rows); [done | done | apply holds_pd_DataFrame]. }
  intros i t Ht. eexists. split.
  { erewrite at_put_int; [done | apply verdicts_suspicious | done]. }
  cbv beta.
  destruct (rule_flag_b2z rows t) as [r ->].
  destruct (ml_flag_b2z sk rows t) as [m ->].
  destruct r, m; auto.
Qed.

(** On the malformed batch, with the stand-in forest. *)
Lemma no_validation_witness :
  ∃ w', detect toy 1 (world_of malformed) = (Ok 1%positive, w')
    ∧ ∀ i t, malformed !! i = Some t →
        ∃ s, at_ 1 "suspicious" i w' = Some (int_cell s) ∧ (s = 0 ∨ s = 1).
Proof.
  apply (no_validation toy malformed 1 (world_of malformed)); [reflexivity | discriminate].
Defined.

(** ** Determinism *)

(** C6. Determinism.  Two runs of the pipeline on the same batch end the
    same way and leave the same frame, whatever else differs between the
    two: the address of the frame, the other frames of the heap, the
    state of numpy's global generator. *)
Theorem detect_deterministic sk rows df1 w1 df2 w2 :
  heap w1 !! df1 = Some (pd_DataFrame rows) →
  heap w2 !! df2 = Some (pd_DataFrame rows) →
  ∃ F',
    heap (detect sk df1 w1).2 !! df1 = Some F'
    ∧ heap (detect sk df2 w2).2 !! df2 = Some F'
    ∧ ((detect sk df1 w1).1 = Ok df1 ∧ (detect sk df2 w2).1 = Ok df2
       ∨ ∃ e, (detect sk df1 w1).1 = Raise e ∧ (detect sk df2 w2).1 = Raise e).
Proof.
  intros H1 H2. destruct rows as [|t rows].
  - rewrite (detect_empty sk df1 w1 _ H1 (holds_pd_DataFrame [])).
    rewrite (detect_empty sk df2 w2 _ H2 (holds_pd_DataFrame [])).
    eexists. split; [apply heap_put|]. split; [apply heap_put|].
    right. by eexists.
  - rewrite (detect_run sk (t :: rows) df1 w1 _ ltac:(done) H1 (holds_pd_DataFrame _)).
    rewrite (detect_run sk (t :: rows) df2 w2 _ ltac:(done) H2 (holds_pd_DataFrame _)).
    eexists. split; [apply heap_put|]. split; [apply heap_put|]. by left.
Qed.

(** The sample batch, run in two different worlds. *)
Lemma detect_deterministic_witness :
  ∃ F',
    heap (detect toy 1 (world_of sample)).2 !! 1%positive = Some F'
    ∧ heap (detect toy 5 elsewhere).2 !! 5%positive = Some F'
    ∧ ((detect toy 1 (world_of sample)).1 = Ok 1%positive
       ∧ (detect toy 5 elsewhere).1 = Ok 5%positive
       ∨ ∃ e, (detect toy 1 (world_of sample)).1 = Raise e
              ∧ (detect toy 5 elsewhere).1 = Raise e).
Proof.
  apply (detect_deterministic toy sample 1 (world_of sample) 5 elsewhere); reflexivity.
Defined.

(** ** Ranks in a sorted array *)

Global Instance Qle_trans' : Transitive Qle := Qle_trans.

Global Instance Qle_total : Total Qle.
Proof.
  intros x y. destruct (Qlt_le_dec x y) as [H|H]; [left; by apply Qlt_le_weak | by right].
Qed.

Lemma below_Permutation θ l l' : l ≡ₚ l' → below θ l = below θ l'.
Proof. intros H. unfold below. by rewrite H. Qed.

Lemma below_none θ l : Forall (λ s, (θ <= s)%Q) l → below θ l = 0%nat.
Proof.
  unfold below. induction 1 as [|s l Hs _ IH]; [done|].
  rewrite filter_cons_False; [done|]. by apply Qle_not_lt.
Qed.

Lemma below_all θ l : Forall (λ s, (s < θ)%Q) l → below θ l = length l.
Proof.
  unfold below. induction 1 as [|s l Hs _ IH]; [done|].
  rewrite filter_cons_True by done. simpl. by rewrite IH.
Qed.

Lemma below_app θ l1 l2 : below θ (l1 ++ l2) = (below θ l1 + below θ l2)%nat.
Proof. unfold below. by rewrite filter_app, length_app. Qed.

Lemma sorted_from a k x :
  StronglySorted Qle a → a !! k = Some x → Forall (Qle x) (drop k a).
Proof.
  intros Hs Hk. rewrite <- (take_drop k a) in Hs.
  apply StronglySorted_app_1_r in Hs.
  rewrite (drop_S _ _ _ Hk) in *.
  inversion Hs; subst. constructor; [apply Qle_refl | done].
Qed.

Lemma sorted_upto a k x :
  StronglySorted Qle a → a !! k = Some x → Forall (λ y, (y <= x)%Q) (take (S k) a).
Proof.
  intros Hs Hk. rewrite (take_S_r _ _ _ Hk).
  apply Forall_app. split; [|by constructor; [apply Qle_refl|]].
  apply Forall_forall. intros y Hy.
  rewrite <- (take_drop k a) in Hs.
  eapply StronglySorted_app_1_elem_of; [exact Hs | done |].
  rewrite (drop_S _ _ _ Hk). by left.
Qed.

Lemma below_le_rank θ a k x :
  StronglySorted Qle a → a !! k = Some x → (θ <= x)%Q → (below θ a ≤ k)%nat.
Proof.
  intros Hs Hk Hx. rewrite <- (take_drop k a), below_app.
  rewrite (below_none θ (drop k a)).
  - unfold below. pose proof (length_filter (λ s, (s < θ)%Q) (take k a)).
    assert (length (take k a) ≤ k)%nat by (rewrite length_take; lia). lia.
  - eapply Forall_impl; [by eapply sorted_from|].
    intros y Hy. simpl in Hy. by eapply Qle_trans.
Qed.

Lemma below_gt_rank θ a k x :
  StronglySorted Qle a → a !! k = Some x → (x < θ)%Q → (k < below θ a)%nat.
Proof.
  intros Hs Hk Hx. rewrite <- (take_drop (S k) a), below_app.
  rewrite (below_all θ (take (S k) a)).
  - apply lookup_lt_Some in Hk. rewrite length_take. lia.
  - eapply Forall_impl; [by eapply sorted_upto|].
    intros y Hy. simpl in Hy. by eapply Qle_lt_trans.
Qed.

Lemma sorted_ranks a i j x y :
  StronglySorted Qle a → a !! i = Some x → a !! j = Some y → (i ≤ j)%nat → (x <= y)%Q.
Proof.
  intros Hs Hi Hj Hij.
  pose proof (sorted_from a i x Hs Hi) as HF.
  rewrite Forall_forall in HF. apply HF.
  apply list_elem_of_lookup. exists (j - i)%nat.
  rewrite lookup_drop. by replace (i + (j - i))%nat with j by lia.
Qed.

Lemma NoDupA_ranks (a : list Q) i j x y :
  NoDupA Qeq a → a !! i = Some x → a !! j = Some y → (i < j)%nat → ¬ (x == y)%Q.
Proof.
  intros Hnd. revert i j. induction Hnd as [|x0 a Hx0 Hnd IH]; intros i j Hi Hj Hij.
  - done.
  - destruct j as [|j]; [lia|]. destruct i as [|i].
    + simpl in Hi, Hj. injection Hi as ->. intros E. apply Hx0.
      apply InA_alt. exists y. split; [done|].
      apply list_elem_of_In. by eapply list_elem_of_lookup_2.
    + simpl in Hi, Hj. eapply IH; [done | done | lia].
Qed.

Lemma distinctb_NoDupA l : distinctb l = true → NoDupA Qeq l.
Proof.
  induction l as [|x l IH]; intros H; [constructor|].
  simpl in H. apply andb_true_iff in H as [Hx Hl].
  constructor; [|by apply IH].
  intros Hin. apply InA_alt in Hin as (y & Hxy & Hy).
  rewrite forallb_forall in Hx. specialize (Hx y Hy).
  apply negb_true_iff in Hx. apply Qeq_bool_iff in Hxy. congruence.
Qed.

(** ** The threshold of the forest *)

Lemma percentile_rank (xs : list Q) :
  xs ≠ [] →
  ∃ x y hi,
    merge_sort Qle xs !! rank (length xs) = Some x
    ∧ merge_sort Qle xs !! hi = Some y
    ∧ (rank (length xs) ≤ hi ≤ rank (length xs) + 1)%nat
    ∧ (x <= np_percentile xs (100 * (2 # 100)))%Q
    ∧ (np_percentile xs (100 * (2 # 100)) <= y)%Q.
Proof.
  intros Hne. unfold np_percentile, rank.
  set (a := merge_sort Qle xs). set (n := Z.of_nat (length xs)).
  assert (Hn : 1 ≤ n) by (destruct xs; [done | unfold n; simpl; lia]).
  assert (Hlen : length a = length xs) by (by unfold a; rewrite merge_sort_Permutation).
  set (virtual := (100 * (2 # 100) / 100 * inject_Z (n - 1))%Q).
  assert (Hv : (virtual == inject_Z (n - 1) / inject_Z 50)%Q) by (unfold virtual; field).
  assert (Hp : Qfloor virtual = (n - 1) / 50).
  { rewrite (Qfloor_comp _ _ Hv). symmetry. apply Zdiv_Qdiv. }
  pose proof (Qfloor_le virtual) as Hg0. pose proof (Qlt_floor virtual) as Hg1.
  rewrite Hp in *. set (p := (n - 1) / 50) in *.
  assert (Hp0 : 0 ≤ p) by (apply Z.div_pos; lia).
  assert (Hp1 : p ≤ n - 1) by (unfold p; apply Z.div_le_upper_bound; lia).
  destruct (lookup_lt_is_Some_2 a (Z.to_nat p)) as [x Hx]; [unfold n in *; lia|].
  destruct (lookup_lt_is_Some_2 a (Z.to_nat (Z.min (p + 1) (n - 1)))) as [y Hy];
    [unfold n in *; lia|].
  rewrite (nth_lookup_Some _ _ _ _ Hx), (nth_lookup_Some _ _ _ _ Hy).
  exists x, y, (Z.to_nat (Z.min (p + 1) (n - 1))).
  split; [done|]. split; [done|]. split; [lia|].
  assert (Hxy : (x <= y)%Q).
  { eapply (sorted_ranks a); [| exact Hx | exact Hy | lia].
    apply StronglySorted_merge_sort; apply _. }
  rewrite inject_Z_plus in Hg1. change (inject_Z 1) with 1%Q in Hg1.
  split; nra.
Qed.

(** The number of scores strictly below the threshold is at most one
    more than the rank of the percentile, and at least that rank when no
    two scores are equal. *)
Lemma below_percentile (xs : list Q) :
  xs ≠ [] →
  (below (np_percentile xs (100 * (2 # 100))) xs ≤ rank (length xs) + 1)%nat
  ∧ (NoDupA Qeq xs → (rank (length xs) ≤ below (np_percentile xs (100 * (2 # 100))) xs)%nat).
Proof.
  intros Hne.
  destruct (percentile_rank xs Hne) as (x & y & hi & Hx & Hy & Hhi & Hlo & Hup).
  set (θ := np_percentile xs (100 * (2 # 100))) in *.
  assert (Hs : StronglySorted Qle (merge_sort Qle xs))
    by (apply StronglySorted_merge_sort; apply _).
  rewrite <- (below_Permutation θ _ _ (merge_sort_Permutation Qle xs)).
  split.
  - pose proof (below_le_rank θ _ hi y Hs Hy Hup). lia.
  - intros Hnd.
    destruct (rank (length xs)) as [|k] eqn:Hk; [lia|].
    destruct (lookup_lt_is_Some_2 (merge_sort Qle xs) k) as [z Hz].
    { apply lookup_lt_Some in Hx. lia. }
    apply (below_gt_rank θ _ k z Hs Hz).
    eapply Qlt_le_trans; [|exact Hlo].
    apply Qlt_leneq. split.
    + eapply (sorted_ranks _ k (S k)); [done | done | done | lia].
    + eapply (NoDupA_ranks _ k (S k)); [| done | done | lia].
      eapply PermutationA_preserves_NoDupA; [apply Q_Setoid | | exact Hnd].
      apply Permutation_PermutationA; [apply Q_Setoid|].
      symmetry. apply merge_sort_Permutation.
Qed.

Lemma py_round_floor q : Qfloor q ≤ py_round q ≤ Qfloor q + 1.
Proof.
  unfold py_round. cbv zeta.
  generalize (Qfloor q). intros f.
  destruct (_ ?= _)%Q; [destruct (Z.even _) | |]; lia.
Qed.

Lemma py_round_Z k q : (q == inject_Z k)%Q → py_round q = k.
Proof.
  intros H. unfold py_round. cbv zeta. rewrite (Qfloor_comp _ _ H), Qfloor_Z.
  assert (E : (q - inject_Z k ?= 1 # 2)%Q = Lt).
  { rewrite <- Qlt_alt, H. lra. }
  by rewrite E.
Qed.

Lemma target_rank (n : nat) :
  (1 ≤ n)%nat →
  Z.of_nat (rank n) ≤ target n ∧ target n - 1 ≤ Z.of_nat (rank n).
Proof.
  intros Hn. unfold rank, target.
  set (m := Z.of_nat n). assert (1 ≤ m) by lia.
  rewrite Z2Nat.id by (apply Z.div_pos; lia).
  assert (Hq : ((2 # 100) * inject_Z m == inject_Z m / inject_Z 50)%Q) by field.
  pose proof (py_round_floor ((2 # 100) * inject_Z m)) as Hr.
  rewrite (Qfloor_comp _ _ Hq), <- Zdiv_Qdiv in Hr.
  destruct (decide (m mod 50 = 0)) as [Hd|Hd].
  - assert (Hm : m = 50 * (m / 50)) by (pose proof (Z.div_mod m 50); lia).
    rewrite (py_round_Z (m / 50)).
    + assert ((m - 1) / 50 = m / 50 - 1); [|lia].
      symmetry. apply Z.div_unique with (r := 49); lia.
    + rewrite Hq. rewrite Hm at 1. rewrite inject_Z_mult. field.
  - assert ((m - 1) / 50 = m / 50); [|lia].
    symmetry. apply Z.div_unique with (r := m mod 50 - 1).
    + pose proof (Z.mod_pos_bound m 50). lia.
    + pose proof (Z.div_mod m 50). lia.
Qed.

(** ** The contamination rate and the number of flags *)

Section Contamination.

Context (sk : sklearn).

Lemma flagged_below rows (l : list Q) :
  count_flagged (ml_flag sk rows <$> l) = Z.of_nat (below (offset_ sk rows) l).
Proof.
  unfold count_flagged, below. f_equal.
  induction l as [|s l IH]; [done|].
  assert (Hiff : ml_flag sk rows s = 1 ↔ (s < offset_ sk rows)%Q).
  { unfold ml_flag, outlier.
    destruct (Qltb (s - offset_ sk rows) 0) eqn:E.
    - apply Qltb_lt in E. split; [intros _; lra | done].
    - split; [done|]. intros H.
      assert (Qltb (s - offset_ sk rows) 0 = true); [|congruence].
      apply Qltb_lt. lra. }
  rewrite fmap_cons, !filter_cons.
  destruct (decide (ml_flag sk rows s = 1)) as [H1|H1],
           (decide (s < offset_ sk rows)%Q) as [H2|H2];
    [| tauto | tauto |]; rewrite ?length_cons; by rewrite IH.
Qed.

(** C5, as the code has it.  On a batch of [N >= 50] transactions the
    number of transactions with [ml_flagged] = 1 is at most
    [round(0.02 * N) + 1]; it is at least [round(0.02 * N) - 1] when no
    two transactions get the same score from the forest. *)
Theorem contamination_bound rows df w :
  heap w !! df = Some (pd_DataFrame rows) → (50 ≤ length rows)%nat →
  ∃ w' ml,
    detect sk df w = (Ok df, w')
    ∧ column df "ml_flagged" w' = Some (SInt ml)
    ∧ length ml = length rows
    ∧ count_flagged ml ≤ target (length rows) + 1
    ∧ (NoDupA Qeq (scores sk rows) → target (length rows) - 1 ≤ count_flagged ml).
Proof.
  intros HF HN.
  assert (Hne : rows ≠ []) by (intros ->; simpl in HN; lia).
  eexists _, _. split.
  { apply (detect_run sk rows); [done | done | apply holds_pd_DataFrame]. }
  split; [by rewrite column_put, verdicts_ml_flagged|].
  split; [by rewrite length_fmap|].
  rewrite <- ml_flags_rows, flagged_below. unfold offset_.
  assert (Hs : scores sk rows ≠ []).
  { intros E. apply (f_equal length) in E. rewrite length_scores in E.
    simpl in E. lia. }
  destruct (below_percentile (scores sk rows) Hs) as [Hup Hlo].
  rewrite length_scores in Hup, Hlo.
  destruct (target_rank (length rows)) as [H1 H2]; [lia|].
  split; [lia|]. intros Hnd. specialize (Hlo Hnd). lia.
Qed.

(** Rows with one amount and one location get one score, and then none
    is strictly below the percentile. *)
Lemma uniform_scores rows a l :
  Forall (λ t, amount t = a ∧ location t = l) rows →
  ∃ c, Forall (λ s, s = c) (scores sk rows).
Proof.
  intros H. unfold scores, features.
  set (cats := tail (categories (location <$> rows))).
  exists (score sk rows (Fin a :: ((λ c, indicator c l) <$> cats))).
  rewrite <- list_fmap_compose. apply Forall_fmap.
  eapply Forall_impl; [exact H|]. intros t [Ha Hl]. simpl.
  unfold feature_row. by rewrite Ha, Hl.
Qed.

Lemma uniform_unflagged rows a l :
  rows ≠ [] →
  Forall (λ t, amount t = a ∧ location t = l) rows →
  count_flagged (ml_flag_of sk rows <$> rows) = 0.
Proof.
  intros Hne H. destruct (uniform_scores rows a l H) as [c Hc].
  rewrite <- ml_flags_rows, flagged_below. unfold offset_.
  assert (Hs : scores sk rows ≠ []).
  { intros E. apply (f_equal length) in E. rewrite length_scores in E.
    by destruct rows. }
  destruct (percentile_rank (scores sk rows) Hs) as (x & y & hi & _ & Hy & _ & _ & Hup).
  rewrite below_none; [done|].
  assert (y = c) as ->.
  { apply list_elem_of_lookup_2 in Hy. rewrite merge_sort_Permutation in Hy.
    rewrite Forall_forall in Hc. by apply Hc. }
  eapply Forall_impl; [exact Hc|]. by intros s ->.
Qed.

End Contamination.

Lemma uniform_batch_flags sk w' ml :
  detect sk 1 (world_of uniform_batch) = (Ok 1%positive, w') →
  column 1 "ml_flagged" w' = Some (SInt ml) →
  count_flagged ml = 0.
Proof.
  intros Hd Hc.
  rewrite (detect_run sk uniform_batch 1 _ (pd_DataFrame uniform_batch)) in Hd;
    [| done | done | apply holds_pd_DataFrame].
  injection Hd as <-. rewrite column_put, verdicts_ml_flagged in Hc.
  injection Hc as <-.
  apply (uniform_unflagged sk uniform_batch 500%Q (Some "Nairobi"%string)); [done|].
  unfold uniform_batch. apply Forall_fmap, Forall_forall. by intros i _.
Qed.

(** C5 fails on a batch of 200 equal transfers: [round(0.02 * 200)] is
    4, and whatever the forest, no transaction is flagged. *)
Lemma contamination_counterexample :
  (50 ≤ length uniform_batch)%nat
  ∧ target (length uniform_batch) = 4
  ∧ ¬ ∃ sk w' ml,
        detect sk 1 (world_of uniform_batch) = (Ok 1%positive, w')
        ∧ column 1 "ml_flagged" w' = Some (SInt ml)
        ∧ target (length uniform_batch) - 1 ≤ count_flagged ml
          ≤ target (length uniform_batch) + 1.
Proof.
  assert (Ht : target (length uniform_batch) = 4) by (by vm_compute).
  split; [vm_compute; lia|]. split; [done|].
  intros (sk & w' & ml & Hd & Hc & Hb).
  rewrite (uniform_batch_flags sk w' ml Hd Hc), Ht in Hb. lia.
Qed.

(** On sixty transfers with sixty different scores the number of flags
    is within one of [round(0.02 * 60)]. *)
Lemma contamination_bound_witness :
  ∃ w' ml,
    detect toy 1 (world_of ascending) = (Ok 1%positive, w')
    ∧ column 1 "ml_flagged" w' = Some (SInt ml)
    ∧ length ml = length ascending
    ∧ target (length ascending) - 1 ≤ count_flagged ml ≤ target (length ascending) + 1.
Proof.
  destruct (contamination_bound toy ascending 1 (world_of ascending) eq_refl)
    as (w' & ml & Hr & Hc & Hl & Hup & Hlo); [vm_compute; lia|].
  exists w', ml. split; [exact Hr|]. split; [exact Hc|]. split; [exact Hl|].
  split; [|exact Hup]. apply Hlo, distinctb_NoDupA. vm_compute. reflexivity.
Defined.

(** * Further properties of the rules and of the anomaly stage *)


Lemma upd_id k s F : data F !! k = Some s → upd k s F = F.
Proof.
  intros H. destruct F as [n d]. unfold upd; simpl in *. f_equal.
  by apply insert_id.
Qed.

Lemma put_id df F w : heap w !! df = Some F → put df F w = w.
Proof.
  intros H. destruct w as [h r]. unfold put; simpl in *. f_equal.
  by apply insert_id.
Qed.



Lemma after_rules_fixed rows F :
  after_rules rows (after_rules rows F) = after_rules rows F.
Proof.
  unfold after_rules. rewrite (upd_id "small_txn").
  - apply upd_id, data_upd_eq.
  - rewrite data_upd_ne by done. apply data_upd_eq.
Qed.

Lemma verdicts_fixed sk rows F :
  verdicts sk rows (verdicts sk rows F) = verdicts sk rows F.
Proof.
  set (G := verdicts sk rows F).
  assert (Ha : after_rules rows G = G).
  { unfold after_rules. rewrite (upd_id "small_txn").
    - apply upd_id, verdicts_rule_flagged.
    - unfold G, verdicts, after_rules. rewrite !data_upd_ne by done. apply data_upd_eq. }
  unfold verdicts at 1. rewrite Ha.
  rewrite (upd_id "ml_flagged") by apply verdicts_ml_flagged.
  apply upd_id, verdicts_suspicious.
Qed.

Lemma holds_verdicts sk rows F : holds rows F → holds rows (verdicts sk rows F).
Proof.
  intros H. by apply holds_upd, holds_upd, holds_after_rules.
Qed.

(** X2.  Running [apply_rules] again on its own output changes nothing, and
    neither does running the whole pipeline again. *)
Theorem pipeline_idempotent sk rows df w :
  heap w !! df = Some (pd_DataFrame rows) → rows ≠ [] →
  (∃ w1, apply_rules df w = (Ok df, w1) ∧ apply_rules df w1 = (Ok df, w1))
  ∧ (∃ w', detect sk df w = (Ok df, w') ∧ detect sk df w' = (Ok df, w')).
Proof.
  intros HF Hne. split.
  - eexists. split; [apply apply_rules_run; [done | apply holds_pd_DataFrame]|].
    erewrite apply_rules_run;
      [| apply heap_put | apply holds_after_rules, holds_pd_DataFrame].
    by rewrite put_put, after_rules_fixed.
  - eexists. split; [apply (detect_run sk rows); [done | done | apply holds_pd_DataFrame]|].
    erewrite (detect_run sk rows);
      [| done | apply heap_put | apply holds_verdicts, holds_pd_DataFrame].
    by rewrite put_put, verdicts_fixed.
Qed.

Lemma pipeline_idempotent_witness :
  (∃ w1, apply_rules 1 (world_of sample) = (Ok 1%positive, w1)
     ∧ apply_rules 1 w1 = (Ok 1%positive, w1))
  ∧ (∃ w', detect toy 1 (world_of sample) = (Ok 1%positive, w')
     ∧ detect toy 1 w' = (Ok 1%positive, w')).
Proof.
  apply (pipeline_idempotent toy sample 1 (world_of sample)); [reflexivity | discriminate].
Defined.

Lemma getitem_Raise df k w F :
  heap w !! df = Some F → data F !! k = None →
  getitem df k w = (Raise (KeyError k), w).
Proof.
  intros HF Hk. unfold getitem.
  rewrite (bind_Ok _ _ _ _ _ (frame_Ok _ _ _ HF)). by rewrite Hk.
Qed.

(** X3.  A frame with no [amount] column makes [apply_rules] raise [KeyError],
    after [rule_flagged] has been written into the frame: the failure
    leaves the input changed. *)
Theorem apply_rules_missing_amount df w F :
  heap w !! df = Some F → data F !! "amount" = None →
  ∃ w', apply_rules df w = (Raise (KeyError "amount"), w')
    ∧ column df "rule_flagged" w' = Some (SInt (replicate (nrows F) 0))
    ∧ ∀ k, k ≠ "rule_flagged"%string → column df k w' = data F !! k.
Proof.
  intros HF Ha. eexists. split.
  - unfold apply_rules.
    erewrite bind_Ok; [| by apply setitem_scalar_Ok].
    erewrite bind_Raise; [done|].
    unfold rule1. erewrite bind_Raise; [done|].
    eapply getitem_Raise; [apply heap_put|].
    by rewrite data_upd_ne.
  - split; [by rewrite column_put, data_upd_eq|].
    intros k Hk. by rewrite column_put, data_upd_ne.
Qed.

Lemma apply_rules_missing_amount_witness :
  ∃ w', apply_rules 1 (mkWorld {[ 1%positive := no_amount ]} (MT19937 [] 0))
        = (Raise (KeyError "amount"), w')
    ∧ column 1 "rule_flagged" w' = Some (SInt [0; 0])
    ∧ ∀ k, k ≠ "rule_flagged"%string → column 1 k w' = data no_amount !! k.
Proof.
  apply (apply_rules_missing_amount 1 (mkWorld {[ 1%positive := no_amount ]} (MT19937 [] 0))
           no_amount); reflexivity.
Defined.



Lemma put_inj df F G w : put df F w = put df G w → F = G.
Proof.
  intros H. apply (f_equal (λ x, heap x !! df)) in H.
  rewrite !heap_put in H. congruence.
Qed.

Lemma holds_same_columns rows rows' F :
  sender_id <$> rows = sender_id <$> rows' →
  amount <$> rows = amount <$> rows' →
  location <$> rows = location <$> rows' →
  holds rows F → holds rows' F.
Proof.
  intros Hs Ha Hl (Hn & Hs' & Ha' & Hl'). unfold holds.
  rewrite Hn, Hs', Ha', Hl', Hs, Hl.
  assert (length rows = length rows') as ->.
  { apply (f_equal length) in Hs. by rewrite !length_fmap in Hs. }
  repeat split. do 2 f_equal.
  change (λ t, Fin (amount t)) with (Fin ∘ amount).
  by rewrite !list_fmap_compose, Ha.
Qed.

(** X5.  The verdicts depend on the senders, the amounts and the places only:
    two batches that agree on these three columns get the same
    [rule_flagged], [ml_flagged] and [suspicious] columns and the same
    outcome, whatever their identifiers, receivers and timestamps. *)
Theorem verdicts_ignore_bookkeeping sk rows rows' df w df' w' :
  heap w !! df = Some (pd_DataFrame rows) →
  heap w' !! df' = Some (pd_DataFrame rows') →
  sender_id <$> rows = sender_id <$> rows' →
  amount <$> rows = amount <$> rows' →
  location <$> rows = location <$> rows' →
  column df "rule_flagged" (detect sk df w).2 = column df' "rule_flagged" (detect sk df' w').2
  ∧ column df "ml_flagged" (detect sk df w).2 = column df' "ml_flagged" (detect sk df' w').2
  ∧ column df "suspicious" (detect sk df w).2 = column df' "suspicious" (detect sk df' w').2
  ∧ ((detect sk df w).1 = Ok df ∧ (detect sk df' w').1 = Ok df'
     ∨ ∃ e, (detect sk df w).1 = Raise e ∧ (detect sk df' w').1 = Raise e).
Proof.
  intros HF HF' Hs Ha Hl.
  pose proof (holds_same_columns rows rows' _ Hs Ha Hl (holds_pd_DataFrame rows)) as Hh.
  destruct rows as [|t rows].
  - destruct rows' as [|t' rows']; [|discriminate Hs].
    rewrite (detect_empty sk df w _ HF (holds_pd_DataFrame [])).
    rewrite (detect_empty sk df' w' _ HF' (holds_pd_DataFrame [])).
    cbn [fst snd]. rewrite !column_put. repeat split. right. by eexists.
  - assert (Hne : rows' ≠ []) by (by intros ->).
    assert (E : verdicts sk (t :: rows) (pd_DataFrame (t :: rows))
                = verdicts sk rows' (pd_DataFrame (t :: rows))).
    { apply (put_inj df _ _ w).
      pose proof (detect_run sk (t :: rows) df w _ ltac:(done) HF (holds_pd_DataFrame _)) as R1.
      pose proof (detect_run sk rows' df w _ Hne HF Hh) as R2.
      congruence. }
    rewrite (detect_run sk (t :: rows) df w _ ltac:(done) HF (holds_pd_DataFrame _)).
    rewrite (detect_run sk rows' df' w' _ Hne HF' (holds_pd_DataFrame _)).
    cbn [fst snd]. rewrite !column_put, E.
    rewrite !verdicts_rule_flagged, !verdicts_ml_flagged, !verdicts_suspicious.
    repeat split. by left.
Qed.

Lemma verdicts_ignore_bookkeeping_witness :
  column 1 "rule_flagged" (detect toy 1 (world_of sample)).2
  = column 1 "rule_flagged" (detect toy 1 (world_of relabelled)).2
  ∧ column 1 "ml_flagged" (detect toy 1 (world_of sample)).2
    = column 1 "ml_flagged" (detect toy 1 (world_of relabelled)).2
  ∧ column 1 "suspicious" (detect toy 1 (world_of sample)).2
    = column 1 "suspicious" (detect toy 1 (world_of relabelled)).2
  ∧ ((detect toy 1 (world_of sample)).1 = Ok 1%positive
     ∧ (detect toy 1 (world_of relabelled)).1 = Ok 1%positive
     ∨ ∃ e, (detect toy 1 (world_of sample)).1 = Raise e
            ∧ (detect toy 1 (world_of relabelled)).1 = Raise e).
Proof.
  apply (verdicts_ignore_bookkeeping toy sample relabelled 1 (world_of sample)
           1 (world_of relabelled)); reflexivity.
Defined.





Section Threshold.

Context (sk : sklearn).

(** X7.  The forest flags from the bottom of the scores: a flagged
    transaction has a strictly lower score than any transaction that is
    not flagged. *)
Theorem flagged_scores_lower rows df w i j si sj :
  heap w !! df = Some (pd_DataFrame rows) →
  scores sk rows !! i = Some si → scores sk rows !! j = Some sj →
  ∃ w', detect sk df w = (Ok df, w')
    ∧ (at_ df "ml_flagged" i w' = Some (int_cell 1) →
       at_ df "ml_flagged" j w' = Some (int_cell 0) →
       (si < sj)%Q).
Proof.
  intros HF Hi Hj.
  assert (Hne : rows ≠ []).
  { intros ->. apply lookup_lt_Some in Hi. rewrite length_scores in Hi.
    simpl in Hi. lia. }
  eexists. split; [by apply (detect_run sk rows); [| | apply holds_pd_DataFrame]|].
  unfold at_. rewrite column_put, verdicts_ml_flagged, <- ml_flags_rows. simpl.
  rewrite !list_lookup_fmap, Hi, Hj. simpl.
  unfold ml_flag, outlier. intros H1 H0.
  destruct (Qltb (si - offset_ sk rows) 0) eqn:Ei; [|done].
  destruct (Qltb (sj - offset_ sk rows) 0) eqn:Ej; [done|].
  apply Qltb_lt in Ei.
  assert (¬ (sj - offset_ sk rows < 0)%Q).
  { intros H. apply Qltb_lt in H. congruence. }
  lra.
Qed.

(** X8.  When every transaction of the batch has the same amount and the same
    place (a batch of one transaction, for one), the forest flags none,
    and [suspicious] is [rule_flagged]. *)
Theorem uniform_batch_unflagged rows a l df w i t :
  heap w !! df = Some (pd_DataFrame rows) →
  Forall (λ t, amount t = a ∧ location t = l) rows →
  rows !! i = Some t →
  ∃ w', detect sk df w = (Ok df, w')
    ∧ at_ df "ml_flagged" i w' = Some (int_cell 0)
    ∧ at_ df "suspicious" i w' = at_ df "rule_flagged" i w'.
Proof.
  intros HF Hu Ht.
  assert (Hne : rows ≠ []) by (by eapply nonempty_lookup).
  pose proof (uniform_unflagged sk rows a l Hne Hu) as H0.
  assert (Hz : ml_flag_of sk rows t = 0).
  { destruct (ml_flag_b2z sk rows t) as [[|] Hm]; [|done].
    exfalso. unfold count_flagged in H0.
    assert (Hin : ml_flag_of sk rows t ∈ filter (λ z, z = 1) (ml_flag_of sk rows <$> rows)).
    { apply list_elem_of_filter. split; [done|].
      apply list_elem_of_fmap. exists t. split; [done|].
      by eapply list_elem_of_lookup_2. }
    destruct (filter (λ z, z = 1) (ml_flag_of sk rows <$> rows)); [|simpl in H0; lia].
    by apply elem_of_nil in Hin. }
  eexists. split; [by apply (detect_run sk rows); [| | apply holds_pd_DataFrame]|].
  erewrite !at_put_int;
    [| apply verdicts_rule_flagged | done | apply verdicts_suspicious | done
     | apply verdicts_ml_flagged | done].
  cbv beta. rewrite Hz. split; [done|].
  do 2 f_equal. destruct (rule_flag_b2z rows t) as [[|] ->]; done.
Qed.

(** X9.  One verdict per transaction: when the pipeline returns, each of
    [rule_flagged], [ml_flagged] and [suspicious] is an integer column
    with as many cells as the batch has rows. *)
Theorem one_verdict_per_row rows df w :
  heap w !! df = Some (pd_DataFrame rows) → rows ≠ [] →
  ∃ w' r m s, detect sk df w = (Ok df, w')
    ∧ column df "rule_flagged" w' = Some (SInt r) ∧ length r = length rows
    ∧ column df "ml_flagged" w' = Some (SInt m) ∧ length m = length rows
    ∧ column df "suspicious" w' = Some (SInt s) ∧ length s = length rows.
Proof.
  intros HF Hne.
  exists (put df (verdicts sk rows (pd_DataFrame rows)) w),
    (rule_flag rows <$> rows), (ml_flag_of sk rows <$> rows),
    ((λ t, Z.max (rule_flag rows t) (ml_flag_of sk rows t)) <$> rows).
  split; [by apply (detect_run sk rows); [| | apply holds_pd_DataFrame]|].
  rewrite !column_put, verdicts_rule_flagged, verdicts_ml_flagged, verdicts_suspicious.
  by rewrite !length_fmap.
Qed.

End Threshold.

Lemma flagged_scores_lower_witness :
  ∃ w', detect toy 1 (world_of sample) = (Ok 1%positive, w')
    ∧ (at_ 1 "ml_flagged" 17 w' = Some (int_cell 1) →
       at_ 1 "ml_flagged" 0 w' = Some (int_cell 0) →
       (- 4000 < - 500)%Q).
Proof.
  apply (flagged_scores_lower toy sample 1 (world_of sample) 17 0); reflexivity.
Defined.

Lemma uniform_batch_unflagged_witness :
  ∃ w', detect toy 1 (world_of [tx 1 7 500 "Nairobi"]) = (Ok 1%positive, w')
    ∧ at_ 1 "ml_flagged" 0 w' = Some (int_cell 0)
    ∧ at_ 1 "suspicious" 0 w' = at_ 1 "rule_flagged" 0 w'.
Proof.
  apply (uniform_batch_unflagged toy [tx 1 7 500 "Nairobi"] 500%Q (Some "Nairobi"%string)
           1 (world_of [tx 1 7 500 "Nairobi"]) 0 (tx 1 7 500 "Nairobi"));
    [reflexivity | by repeat constructor | reflexivity].
Defined.

Lemma one_verdict_per_row_witness :
  ∃ w' r m s, detect toy 1 (world_of sample) = (Ok 1%positive, w')
    ∧ column 1 "rule_flagged" w' = Some (SInt r) ∧ length r = length sample
    ∧ column 1 "ml_flagged" w' = Some (SInt m) ∧ length m = length sample
    ∧ column 1 "suspicious" w' = Some (SInt s) ∧ length s = length sample.
Proof.
  apply (one_verdict_per_row toy sample 1 (world_of sample)); [reflexivity | discriminate].
Defined.

(** * Properties of the generated batch *)

Lemma Gen_bind_eq {A B} (m : Gen A) (f : A → Gen B) g :
  (m ≫= f) g = f (m g).1 (m g).2.
Proof. reflexivity. Qed.

Lemma for_cons {A B} (a : A) (l : list A) (body : A → Gen B) g :
  (for_ (a :: l) body g).1 = (body a g).1 :: (for_ l body (body a g).2).1.
Proof. reflexivity. Qed.

Lemma for_length {A B} (l : list A) (body : A → Gen B) g :
  length (for_ l body g).1 = length l.
Proof.
  revert g. induction l as [|a l IH]; intros g; [done|].
  by rewrite for_cons, !length_cons, IH.
Qed.

Lemma for_Forall {A B} (P : B → Prop) (l : list A) (body : A → Gen B) g :
  (∀ a g, a ∈ l → P (body a g).1) → Forall P (for_ l body g).1.
Proof.
  revert g. induction l as [|a l IH]; intros g H; [by constructor|].
  rewrite for_cons. constructor.
  - apply H. by left.
  - apply IH. intros a' g' Ha'. apply H. by right.
Qed.

Lemma for_fmap {A B C} (π : B → C) (h : A → C) (l : list A) (body : A → Gen B) g :
  (∀ a g, π (body a g).1 = h a) → π <$> (for_ l body g).1 = h <$> l.
Proof.
  intros H. revert g. induction l as [|a l IH]; intros g; [done|].
  by rewrite for_cons, !fmap_cons, H, IH.
Qed.

Lemma filter_all {A} (P : A → Prop) `{∀ x, Decision (P x)} (l : list A) :
  Forall P l → filter P l = l.
Proof.
  induction 1 as [|x l Hx _ IH]; [done|].
  by rewrite filter_cons_True, IH.
Qed.

Lemma filter_sublist_mono {A} (P : A → Prop) `{∀ x, Decision (P x)} (l1 l2 : list A) :
  l1 `sublist_of` l2 → filter P l1 `sublist_of` filter P l2.
Proof.
  induction 1 as [|x l1 l2 _ IH|x l1 l2 _ IH]; [done| |].
  - rewrite !filter_cons. destruct (decide (P x)); [by constructor | done].
  - rewrite filter_cons. destruct (decide (P x)); [by constructor | done].
Qed.

Lemma fmap_concat {A B} (f : A → B) (ls : list (list A)) :
  f <$> concat ls = concat ((fmap f : list A → list B) <$> ls).
Proof.
  induction ls as [|l ls IH]; [done|]. simpl. by rewrite fmap_app, IH.
Qed.

Lemma small_count_block (rows b : list Transaction) s :
  b `sublist_of` rows →
  Forall (λ t, sender_id t = s ∧ small t) b →
  (length b ≤ small_count rows s)%nat.
Proof.
  intros Hsub Hb. unfold small_count, sent_by.
  assert (E : filter small (filter (λ t, sender_id t = s) b) = b).
  { rewrite (filter_all (λ t, sender_id t = s) b), (filter_all small b); [done | | ].
    - eapply Forall_impl; [exact Hb|]. by intros t [].
    - eapply Forall_impl; [exact Hb|]. by intros t []. }
  transitivity (length (filter small (filter (λ t, sender_id t = s) b)));
    [by rewrite E|].
  apply sublist_length. by do 2 apply filter_sublist_mono.
Qed.

Lemma sublist_concat {A} (b : list A) (ls : list (list A)) :
  b ∈ ls → b `sublist_of` concat ls.
Proof.
  induction ls as [|b' ls IH]; intros Hin; [by apply elem_of_nil in Hin|].
  apply elem_of_cons in Hin as [->|Hin]; simpl.
  - by apply sublist_inserts_r.
  - by apply sublist_inserts_l, IH.
Qed.

(** The ids of the injected rows, block after block, are [n], ...,
    [n + 199]. *)
Lemma injected_ids n :
  concat ((λ j, (λ k, n + j * 10 + k) <$> seqZ 0 10) <$> seqZ 0 20) = seqZ n 200.
Proof.
  replace (seqZ n 200) with (Z.add n <$> seqZ 0 200)
    by (rewrite fmap_add_seqZ; f_equal; lia).
  change (seqZ 0 20) with (Z.of_nat <$> seq 0 20).
  change (seqZ 0 10) with (Z.of_nat <$> seq 0 10).
  change (seqZ 0 200) with (Z.of_nat <$> seq 0 200).
  cbn [seq fmap list_fmap concat app].
  repeat (f_equal; [lia|]). f_equal. lia.
Qed.

Section Generated.

Context (mt : draws).

Lemma round2_range x : (50 <= x)%Q → (x <= 5000)%Q →
  (50 <= round2 x)%Q ∧ (round2 x <= 5000)%Q.
Proof.
  intros H1 H2. unfold round2.
  pose proof (py_round_floor (x * 100)) as [Hlo Hhi].
  assert (Hf1 : 5000 ≤ Qfloor (x * 100)).
  { rewrite <- (Qfloor_Z 5000). apply Qfloor_resp_le.
    change (inject_Z 5000) with 5000%Q. lra. }
  assert (Hf2 : py_round (x * 100) ≤ 500000).
  { destruct (Qlt_le_dec (x * 100) 500000) as [Hlt|Hge].
    - assert (Qfloor (x * 100) < 500000); [|lia].
      apply Z.lt_nge. intros Hc.
      assert (inject_Z 500000 <= inject_Z (Qfloor (x * 100)))%Q by (by rewrite <- Zle_Qle).
      pose proof (Qfloor_le (x * 100)).
      change (inject_Z 500000) with 500000%Q in *. lra.
    - rewrite (py_round_Z 500000); [done|].
      change (inject_Z 500000) with 500000%Q. lra. }
  assert (H5 : (inject_Z 5000 <= inject_Z (py_round (x * 100)))%Q)
    by (rewrite <- Zle_Qle; lia).
  assert (H6 : (inject_Z (py_round (x * 100)) <= inject_Z 500000)%Q)
    by (by rewrite <- Zle_Qle).
  change (inject_Z 5000) with 5000%Q in *.
  change (inject_Z 500000) with 500000%Q in *.
  generalize dependent (inject_Z (py_round (x * 100))). intros z H5 H6.
  unfold Qdiv. change (/ 100)%Q with (1 # 100)%Q. split; lra.
Qed.

Lemma places_nth i : 0 ≤ i < 5 → nth (Z.to_nat i) places ""%string ∈ places.
Proof.
  intros H. assert (Hi : (Z.to_nat i < 5)%nat) by lia.
  destruct (Z.to_nat i) as [|[|[|[|[|k]]]]]; [| | | | | lia]; simpl;
    unfold places; repeat (first [by left | right]).
Qed.

Lemma generate_rows_structure base_time n g :
  ∃ data injected,
    (generate_rows mt base_time n g).1 = data ++ concat injected
    ∧ transaction_id <$> data = seqZ 1 n
    ∧ transaction_id <$> concat injected = seqZ n 200
    ∧ Forall (drawn base_time) data
    ∧ Forall (λ b, length b = 10%nat
                   ∧ ∃ s, 1000 ≤ s ≤ 9999 ∧ Forall (structured base_time s) b) injected.
Proof.
  eexists _, _. split; [reflexivity|]. split; [|split; [|split]].
  - erewrite for_fmap with (h := Z.add 1); [by rewrite fmap_add_seqZ|].
    intros i g'. simpl. lia.
  - rewrite fmap_concat.
    erewrite for_fmap with (h := λ j, (λ k, n + j * 10 + k) <$> seqZ 0 10);
      [apply injected_ids|].
    intros j g'. by apply for_fmap.
  - apply for_Forall. intros i g' _. cbv zeta. simpl.
    repeat match goal with
           | |- context [mt_randbelow mt ?k ?s] =>
               let H := fresh "Hb" in
               pose proof (mt_randbelow_range mt k s ltac:(simpl; lia)) as H;
               generalize dependent (mt_randbelow mt k s); intros
           | |- context [mt_random mt ?s] =>
               let H := fresh "Hu" in
               pose proof (mt_random_range mt s) as H;
               generalize dependent (mt_random mt s); intros
           end.
    unfold drawn; simpl.
    split; [lia|]. split; [lia|].
    match goal with
    | |- context [round2 ?x] =>
        assert (Hx : (50 <= x)%Q ∧ (x <= 5000)%Q) by (destruct Hu; split; lra);
        destruct (round2_range x (proj1 Hx) (proj2 Hx))
    end.
    split; [done|]. split; [done|]. split; [lia|].
    eexists. split; [done|]. by apply places_nth.
  - apply for_Forall. intros j g' _. rewrite Gen_bind_eq.
    split; [by rewrite for_length|].
    pose proof (mt_randbelow_range mt (9999 - 1000 + 1) (faker_random g') ltac:(lia)) as Hs.
    exists (fake_random_int mt 1000 9999 g').1.
    split; [|apply for_Forall; intros k g'' Hk; cbv zeta; simpl].
    + simpl. lia.
    + pose proof (mt_randbelow_range mt (9999 - 1000 + 1) (faker_random g'') ltac:(lia)).
      pose proof (mt_random_range mt (py_random g'')) as [? ?].
      apply elem_of_seqZ in Hk.
      unfold structured; simpl.
      split; [done|]. split; [lia|]. split; [lra|]. split; [lra|]. split; [lia|done].
Qed.

Lemma generated_id_list base_time n g :
  transaction_id <$> (generate_rows mt base_time n g).1 = seqZ 1 n ++ seqZ n 200.
Proof.
  destruct (generate_rows_structure base_time n g)
    as (data & injected & -> & Hd & Hi & _ & _).
  by rewrite fmap_app, Hd, Hi.
Qed.

Lemma generated_length base_time n g :
  length (generate_rows mt base_time n g).1 = (Z.to_nat n + 200)%nat.
Proof.
  pose proof (f_equal length (generated_id_list base_time n g)) as H.
  rewrite length_fmap, length_app, !length_seqZ in H. lia.
Qed.

(** X10.  [generate_transactions(n)] returns [n + 200] rows ([200] when [n]
    is negative); their identifiers are [1], ..., [n] for the rows of the
    main loop, then [n], ..., [n + 199] for the injected ones. *)
Theorem generated_ids base_time n g :
  length (generate_rows mt base_time n g).1 = (Z.to_nat n + 200)%nat
  ∧ transaction_id <$> (generate_rows mt base_time n g).1 = seqZ 1 n ++ seqZ n 200.
Proof.
  destruct (generate_rows_structure base_time n g)
    as (data & injected & -> & Hd & Hi & _ & _).
  assert (E : transaction_id <$> (data ++ concat injected) = seqZ 1 n ++ seqZ n 200)
    by (by rewrite fmap_app, Hd, Hi).
  split; [|done].
  apply (f_equal length) in Hd. apply (f_equal length) in Hi.
  rewrite length_fmap, length_seqZ in Hd, Hi. rewrite length_app. lia.
Qed.

(** X11.  The identifiers are not unique: as soon as the main loop makes a row
    ([n >= 1]), its last row and the first injected row both get the
    identifier [n]. *)
Theorem generated_ids_collide base_time n g :
  1 ≤ n →
  (transaction_id <$> (generate_rows mt base_time n g).1) !! (Z.to_nat n - 1)%nat = Some n
  ∧ (transaction_id <$> (generate_rows mt base_time n g).1) !! Z.to_nat n = Some n
  ∧ ¬ NoDup (transaction_id <$> (generate_rows mt base_time n g).1).
Proof.
  intros Hn. rewrite (generated_id_list base_time n g).
  assert (H1 : (seqZ 1 n ++ seqZ n 200) !! (Z.to_nat n - 1)%nat = Some n).
  { rewrite lookup_app_l by (rewrite length_seqZ; lia).
    rewrite lookup_seqZ. split; [f_equal|]; lia. }
  assert (H2 : (seqZ 1 n ++ seqZ n 200) !! Z.to_nat n = Some n).
  { rewrite lookup_app_r by (rewrite length_seqZ; lia).
    rewrite length_seqZ, Nat.sub_diag, lookup_seqZ. split; [f_equal|]; lia. }
  split; [exact H1|]. split; [exact H2|].
  intros Hnd. pose proof (NoDup_lookup _ _ _ _ Hnd H1 H2). lia.
Qed.

Lemma structured_drawn base_time s t :
  1000 ≤ s ≤ 9999 → structured base_time s t → drawn base_time t.
Proof.
  intros Hs (E & Hr & Ha1 & Ha2 & Ht & Hl). unfold drawn. rewrite E, Hl.
  split; [done|]. split; [done|]. split; [lra|]. split; [lra|]. split; [lia|].
  exists "Nairobi"%string. split; [done|]. by left.
Qed.

(** X12.  Every generated row has a sender and a receiver between 1000 and
    9999, an amount between 50 and 5000, a timestamp within the last
    50000 minutes and one of the five places. *)
Theorem generated_rows_drawn base_time n g :
  Forall (drawn base_time) (generate_rows mt base_time n g).1.
Proof.
  destruct (generate_rows_structure base_time n g)
    as (data & injected & -> & _ & _ & Hd & Hi).
  apply Forall_app. split; [done|].
  apply Forall_concat. eapply Forall_impl; [exact Hi|].
  intros b (_ & s & Hs & Hb). eapply Forall_impl; [exact Hb|].
  intros t. by apply structured_drawn.
Qed.

(** An injected row is a small transaction of a sender with at least ten
    small transactions in the batch. *)
Lemma injected_structuring base_time n g i t :
  (generate_rows mt base_time n g).1 !! i = Some t → (Z.to_nat n ≤ i)%nat →
  small t ∧ (10 ≤ small_count (generate_rows mt base_time n g).1 (sender_id t))%nat.
Proof.
  intros Ht Hi.
  destruct (generate_rows_structure base_time n g)
    as (data & injected & E & Hd & _ & _ & Hb).
  rewrite E in *. clear E.
  assert (Hld : length data = Z.to_nat n).
  { apply (f_equal length) in Hd. by rewrite length_fmap, length_seqZ in Hd. }
  rewrite lookup_app_r in Ht by lia.
  apply list_elem_of_lookup_2 in Ht.
  assert (Hex : ∃ b, b ∈ injected ∧ t ∈ b).
  { clear -Ht. induction injected as [|b bs IH]; [by apply elem_of_nil in Ht|].
    simpl in Ht. apply elem_of_app in Ht as [Ht|Ht].
    - exists b. split; [by left | done].
    - destruct (IH Ht) as (b' & ? & ?). exists b'. split; [by right | done]. }
  destruct Hex as (b & Hin & Htb).
  rewrite Forall_forall in Hb. destruct (Hb b Hin) as (Hlen & s & _ & Hs).
  assert (Hall : Forall (λ t, sender_id t = s ∧ small t) b).
  { eapply Forall_impl; [exact Hs|].
    intros t' (? & _ & _ & Ha & _). split; [done|]. unfold small. lra. }
  rewrite Forall_forall in Hall. destruct (Hall t Htb) as [-> Hsm].
  split; [done|]. rewrite <- Hlen.
  apply small_count_block; [|by apply Forall_forall].
  by apply sublist_inserts_l, sublist_concat.
Qed.

End Generated.

(** The simulation in closed form: the batch is never empty, so the
    pipeline returns, with the verdicts in a frame of its own. *)
Lemma generated_nonempty mt base_time n g : (generate_rows mt base_time n g).1 ≠ [].
Proof.
  pose proof (generated_length mt base_time n g) as Hlen.
  intros E. rewrite E in Hlen. simpl in Hlen. lia.
Qed.

Lemma run_simulation_run mt sk base_time n g w :
  run_simulation mt sk base_time n g w
  = (Ok (fresh (dom (heap w))),
     put (fresh (dom (heap w)))
         (verdicts sk (generate_rows mt base_time n g).1
                   (pd_DataFrame (generate_rows mt base_time n g).1)) w,
     (generate_transactions mt base_time n g).2).
Proof.
  set (rows := (generate_rows mt base_time n g).1).
  unfold run_simulation. cbv zeta. f_equal.
  erewrite bind_Ok; [| reflexivity].
  change (detect sk (fresh (dom (heap w)))
            (put (fresh (dom (heap w))) (pd_DataFrame rows) w)
          = (Ok (fresh (dom (heap w))),
             put (fresh (dom (heap w))) (verdicts sk rows (pd_DataFrame rows)) w)).
  rewrite (detect_run sk rows _ _ (pd_DataFrame rows));
    [by rewrite put_put | apply generated_nonempty | apply heap_put
    | apply holds_pd_DataFrame].
Qed.

(** X13.  The simulation never fails, whatever [n], the draws and the forest:
    it returns a new frame, at an address no frame had, with a verdict for
    each of its [n + 200] rows, and leaves the other frames alone. *)
Theorem simulation_returns mt sk base_time n g w :
  ∃ df w' r m s,
    run_simulation mt sk base_time n g w
    = (Ok df, w', (generate_transactions mt base_time n g).2)
    ∧ heap w !! df = None
    ∧ (∀ other, other ≠ df → heap w' !! other = heap w !! other)
    ∧ column df "rule_flagged" w' = Some (SInt r) ∧ length r = (Z.to_nat n + 200)%nat
    ∧ column df "ml_flagged" w' = Some (SInt m) ∧ length m = (Z.to_nat n + 200)%nat
    ∧ column df "suspicious" w' = Some (SInt s) ∧ length s = (Z.to_nat n + 200)%nat.
Proof.
  set (rows := (generate_rows mt base_time n g).1).
  pose proof (generated_length mt base_time n g) as Hlen. fold rows in Hlen.
  exists (fresh (dom (heap w))),
    (put (fresh (dom (heap w))) (verdicts sk rows (pd_DataFrame rows)) w),
    (rule_flag rows <$> rows), (ml_flag_of sk rows <$> rows),
    ((λ t, Z.max (rule_flag rows t) (ml_flag_of sk rows t)) <$> rows).
  split; [apply run_simulation_run|].
  split; [apply not_elem_of_dom, is_fresh|].
  split; [intros; by apply heap_put_ne|].
  rewrite !column_put, verdicts_rule_flagged, verdicts_ml_flagged, verdicts_suspicious.
  by rewrite !length_fmap.
Qed.

(** X14.  The pipeline finds the injected structuring: in the frame the
    simulation returns, each of the last 200 rows has [rule_flagged] = 1
    and [suspicious] = 1. *)
Theorem simulation_flags_injected mt sk base_time n g w i :
  (Z.to_nat n ≤ i < Z.to_nat n + 200)%nat →
  ∃ df w',
    run_simulation mt sk base_time n g w
    = (Ok df, w', (generate_transactions mt base_time n g).2)
    ∧ at_ df "rule_flagged" i w' = Some (int_cell 1)
    ∧ at_ df "suspicious" i w' = Some (int_cell 1).
Proof.
  intros Hi.
  set (rows := (generate_rows mt base_time n g).1).
  pose proof (generated_length mt base_time n g) as Hlen. fold rows in Hlen.
  destruct (lookup_lt_is_Some_2 rows i) as [t Ht]; [lia|].
  destruct (injected_structuring mt base_time n g i t Ht) as [Hsm Hc]; [lia|].
  fold rows in Hc.
  eexists _, _. split; [apply run_simulation_run|]. fold rows.
  erewrite !at_put_int;
    [| apply verdicts_suspicious | done | apply verdicts_rule_flagged | done].
  cbv beta.
  assert (Hf : rule_flag rows t = 1).
  { rewrite rule_flag_fires, fires1_true; [done | lia | done]. }
  rewrite Hf. split; [done|].
  destruct (ml_flag_b2z sk rows t) as [[|] ->]; done.
Qed.


Lemma generated_ids_collide_witness :
  (transaction_id <$> (generate_rows toy_draws 0 2 toy_generators).1) !! 1%nat = Some 2
  ∧ (transaction_id <$> (generate_rows toy_draws 0 2 toy_generators).1) !! 2%nat = Some 2
  ∧ ¬ NoDup (transaction_id <$> (generate_rows toy_draws 0 2 toy_generators).1).
Proof. apply (generated_ids_collide toy_draws 0 2 toy_generators). lia. Defined.

Lemma simulation_flags_injected_witness :
  ∃ df w',
    run_simulation toy_draws toy 0 2 toy_generators (world_of [])
    = (Ok df, w', (generate_transactions toy_draws 0 2 toy_generators).2)
    ∧ at_ df "rule_flagged" 2 w' = Some (int_cell 1)
    ∧ at_ df "suspicious" 2 w' = Some (int_cell 1).
Proof.
  apply (simulation_flags_injected toy_draws toy 0 2 toy_generators (world_of []) 2).
  simpl. lia.
Defined.

(** * The report *)

(** ** A report reads the frame and changes nothing *)

Lemma reads_only_ret {A} (a : A) : reads_only (mret a : M A).
Proof. by intros w. Qed.

Lemma reads_only_lift {A} (r : result A) : reads_only (lift r).
Proof. by intros w. Qed.

Lemma reads_only_bind {A B} (m : M A) (f : A → M B) :
  reads_only m → (∀ a, reads_only (f a)) → reads_only (m ≫= f).
Proof.
  intros Hm Hf w. unfold mbind, M_bind. specialize (Hm w).
  destruct (m w) as [[a|e] w']; simpl in *; subst; [apply Hf | done].
Qed.

Lemma reads_only_frame df : reads_only (frame df).
Proof. intros w. unfold frame. by destruct (heap w !! df). Qed.

Lemma reads_only_getitem df k : reads_only (getitem df k).
Proof.
  apply reads_only_bind; [apply reads_only_frame|].
  intros F. destruct (data F !! k); [apply reads_only_ret | apply reads_only_lift].
Qed.

Lemma reads_only_for_M {A B} (l : list A) (body : A → M B) :
  (∀ a, reads_only (body a)) → reads_only (for_M l body).
Proof.
  intros H. induction l as [|a l IH]; [apply reads_only_ret|].
  apply reads_only_bind; [apply H|]. intros b.
  apply reads_only_bind; [apply IH|]. intros bs. apply reads_only_ret.
Qed.

Lemma reads_only_row_getitem df i k : reads_only (row_getitem df i k).
Proof.
  apply reads_only_bind; [apply reads_only_getitem|].
  intros s. destruct (Series_at s i); [apply reads_only_ret | apply reads_only_lift].
Qed.

(** X15.  [generate_pdf_report] writes to no frame and draws no random number:
    whatever the frame, and whether it returns or raises, it leaves the
    world as it found it. *)
Theorem report_reads_only df w : (generate_pdf_report df w).2 = w.
Proof.
  revert w. change (reads_only (generate_pdf_report df)).
  unfold generate_pdf_report.
  apply reads_only_bind; [apply reads_only_frame|]; intros F.
  apply reads_only_bind; [apply reads_only_getitem|]; intros s.
  apply reads_only_bind; [apply reads_only_lift|]; intros total.
  apply reads_only_bind; [apply reads_only_lift|]; intros ratio.
  apply reads_only_bind; [apply reads_only_getitem|]; intros s'.
  apply reads_only_bind; [apply reads_only_lift|]; intros mask.
  apply reads_only_bind; [apply reads_only_getitem|]; intros a.
  apply reads_only_bind; [apply reads_only_lift|]; intros keys.
  apply reads_only_bind; [|intros top; apply reads_only_ret].
  apply reads_only_for_M. intros i.
  apply reads_only_for_M. intros k. apply reads_only_row_getitem.
Qed.

(** ** Running the report on a batch *)

(** The report of the sample batch, with the stand-in forest. *)
Example sample_report :
  (generate_pdf_report 1 (put 1 (scored toy sample) (world_of sample))).1
  = Ok (mkReport 24 19 (Fin (7917 # 100)) "High Risk"
          (line_of sample <$> [17; 12; 5; 0; 1; 2; 3; 23; 21; 22]%nat)).
Proof. vm_compute. reflexivity. Qed.

Lemma for_M_Ok {A B} (l : list A) (body : A → M B) (f : A → B) w :
  (∀ a, a ∈ l → body a w = (Ok (f a), w)) → for_M l body w = (Ok (f <$> l), w).
Proof.
  induction l as [|a l IH]; intros H; [done|].
  simpl for_M. erewrite bind_Ok; [| apply H; by left].
  erewrite bind_Ok; [| apply IH; intros a' Ha'; apply H; by right].
  done.
Qed.

Lemma row_getitem_Ok df i k w F s c :
  heap w !! df = Some F → data F !! k = Some s → Series_at s i = Some c →
  row_getitem df i k w = (Ok c, w).
Proof.
  intros HF Hk Hc. unfold row_getitem.
  erewrite bind_Ok; [| by eapply getitem_Ok]. by rewrite Hc.
Qed.

Lemma row_line rows flags df w F i t :
  heap w !! df = Some F → reported rows flags F → rows !! i = Some t →
  for_M printed (row_getitem df i) w = (Ok (row_cells t), w).
Proof.
  intros HF (_ & _ & _ & H1 & H2 & H3 & H4 & H5) Ht.
  unfold printed. simpl for_M.
  erewrite bind_Ok; [| eapply row_getitem_Ok; [done | exact H1 |];
                       simpl; by rewrite list_lookup_fmap, Ht].
  erewrite bind_Ok; [| erewrite bind_Ok; [| eapply row_getitem_Ok; [done | exact H2 |];
                       simpl; by rewrite list_lookup_fmap, Ht];
    erewrite bind_Ok; [| erewrite bind_Ok; [| eapply row_getitem_Ok; [done | exact H3 |];
                       simpl; by rewrite list_lookup_fmap, Ht];
    erewrite bind_Ok; [| erewrite bind_Ok; [| eapply row_getitem_Ok; [done | exact H4 |];
                       simpl; by rewrite list_lookup_fmap, Ht];
    erewrite bind_Ok; [| erewrite bind_Ok; [| eapply row_getitem_Ok; [done | exact H5 |];
                       simpl; by rewrite list_lookup_fmap, Ht];
    reflexivity]; reflexivity]; reflexivity]; reflexivity].
  reflexivity.
Qed.

(** The labels the table is made of are labels of suspicious rows. *)
Lemma kept_flags flags i :
  i ∈ kept ((λ x, bool_decide (x = 1)) <$> flags) ↔ flags !! i = Some 1.
Proof.
  unfold kept. rewrite list_elem_of_filter, elem_of_seq, length_fmap, list_lookup_fmap.
  split.
  - intros [H _]. destruct (flags !! i) as [x|]; [|done]. simpl in H.
    injection H as H. by apply bool_decide_eq_true_1 in H as ->.
  - intros H. rewrite H. split; [done|].
    apply lookup_lt_Some in H. lia.
Qed.

Lemma top_labels_sublist rows flags :
  top_labels rows flags
  `sublist_of` sort_values_desc ((λ t, Fin (amount t)) <$> rows)
                 (kept ((λ x, bool_decide (x = 1)) <$> flags)).
Proof. apply sublist_take. Qed.

Lemma top_labels_flagged rows flags i :
  i ∈ top_labels rows flags → flags !! i = Some 1.
Proof.
  intros Hi. apply kept_flags.
  unfold top_labels, sort_values_desc in Hi.
  apply elem_of_take in Hi as (k & Hk & _). apply list_elem_of_lookup_2 in Hk.
  by rewrite merge_sort_Permutation in Hk.
Qed.

Lemma top_labels_row rows flags i :
  length flags = length rows → i ∈ top_labels rows flags → is_Some (rows !! i).
Proof.
  intros Hl Hi. apply top_labels_flagged, lookup_lt_Some in Hi.
  apply lookup_lt_is_Some. lia.
Qed.

Lemma generate_pdf_report_run rows flags df w F :
  rows ≠ [] → heap w !! df = Some F → reported rows flags F →
  generate_pdf_report df w
  = (Ok (mkReport (length rows) (sum_Z flags)
           (Fin (percentage (sum_Z flags) (length rows)))
           (risk_of (percentage (sum_Z flags) (length rows)))
           (line_of rows <$> top_labels rows flags)), w).
Proof.
  intros Hne HF HR. pose proof HR as (Hn & Hl & Hs & _ & _ & _ & Ha & _).
  unfold generate_pdf_report.
  step ltac:(by apply frame_Ok). cbv zeta.
  step ltac:(by eapply getitem_Ok).
  step ltac:(by apply lift_Ok).
  assert (Hd : true_divide (sum_Z flags) (Z.of_nat (nrows F))
               = Ok (Fin (inject_Z (sum_Z flags) / inject_Z (Z.of_nat (length rows))))).
  { unfold true_divide. rewrite Hn. destruct rows; [done|].
    rewrite decide_False; [done | simpl; lia]. }
  step ltac:(by apply lift_Ok).
  step ltac:(by eapply getitem_Ok).
  step ltac:(by apply lift_Ok).
  step ltac:(by eapply getitem_Ok).
  step ltac:(by apply lift_Ok).
  erewrite bind_Ok;
    [| apply (for_M_Ok _ _ (line_of rows)); intros i Hi;
       destruct (top_labels_row rows flags i Hl Hi) as [t Ht];
       unfold line_of; rewrite Ht; by eapply row_line].
  by rewrite Hn.
Qed.

(** ** The figures of the summary *)

Lemma sum_Z_bits (l : list Z) :
  Forall (λ z, z = 0 ∨ z = 1) l → sum_Z l = count_flagged l.
Proof.
  unfold count_flagged. induction 1 as [|z l [->| ->] _ IH]; [done| |].
  - rewrite filter_cons_False by done. simpl. exact IH.
  - rewrite filter_cons_True by done. simpl sum_Z. fold (sum_Z l).
    rewrite IH, length_cons. lia.
Qed.

Lemma count_flagged_le (l : list Z) : 0 ≤ count_flagged l ≤ Z.of_nat (length l).
Proof. unfold count_flagged. pose proof (length_filter (λ z, z = 1) l). lia. Qed.

(** Rounding moves a number by a half at most. *)
Lemma py_round_near q :
  (q - (1 # 2) <= inject_Z (py_round q))%Q ∧ (inject_Z (py_round q) <= q + (1 # 2))%Q.
Proof.
  unfold py_round. cbv zeta.
  pose proof (Qfloor_le q) as Hlo. pose proof (Qlt_floor q) as Hhi.
  rewrite inject_Z_plus in Hhi. change (inject_Z 1) with 1%Q in Hhi.
  destruct (q - inject_Z (Qfloor q) ?= 1 # 2)%Q eqn:E.
  - apply Qeq_alt in E.
    destruct (Z.even (Qfloor q)); [|rewrite inject_Z_plus; change (inject_Z 1) with 1%Q];
      split; lra.
  - rewrite <- Qlt_alt in E. split; lra.
  - rewrite <- Qgt_alt in E. rewrite inject_Z_plus. change (inject_Z 1) with 1%Q.
    split; lra.
Qed.

Lemma py_round_between (a b : Z) q :
  (inject_Z a <= q)%Q → (q <= inject_Z b)%Q → a ≤ py_round q ≤ b.
Proof.
  intros Ha Hb. destruct (py_round_near q) as [Hlo Hhi]. split.
  - apply Z.lt_succ_r, Z.lt_nge. intros Hc.
    assert (H : (inject_Z (py_round q + 1) <= inject_Z a)%Q) by (rewrite <- Zle_Qle; lia).
    rewrite inject_Z_plus in H. change (inject_Z 1) with 1%Q in H. lra.
  - apply Z.lt_succ_r, Z.lt_nge. intros Hc.
    assert (H : (inject_Z (b + 1) <= inject_Z (py_round q))%Q) by (rewrite <- Zle_Qle; lia).
    rewrite inject_Z_plus in H. change (inject_Z 1) with 1%Q in H. lra.
Qed.

(** The ratio of two counts against a bound in hundredths of a percent. *)
Lemma ratio_gt (k s : Z) (n : nat) :
  (0 < n)%nat → k * Z.of_nat n < 20000 * s →
  (inject_Z k / 2 < inject_Z s / inject_Z (Z.of_nat n) * 100 * 100)%Q.
Proof.
  intros Hn H.
  assert (Hpos : (0 < inject_Z (Z.of_nat n))%Q)
    by (change 0%Q with (inject_Z 0); rewrite <- Zlt_Qlt; lia).
  rewrite Zlt_Qlt in H. rewrite !inject_Z_mult in H.
  change (inject_Z 20000) with 20000%Q in H.
  assert (E : (inject_Z s / inject_Z (Z.of_nat n) * 100 * 100
               == (10000 * inject_Z s) / inject_Z (Z.of_nat n))%Q) by (field; lra).
  rewrite E. apply Qlt_shift_div_l; [done|].
  unfold Qdiv. change (/ 2)%Q with (1 # 2)%Q. nra.
Qed.

Lemma ratio_lt (k s : Z) (n : nat) :
  (0 < n)%nat → 20000 * s < k * Z.of_nat n →
  (inject_Z s / inject_Z (Z.of_nat n) * 100 * 100 < inject_Z k / 2)%Q.
Proof.
  intros Hn H.
  assert (Hpos : (0 < inject_Z (Z.of_nat n))%Q)
    by (change 0%Q with (inject_Z 0); rewrite <- Zlt_Qlt; lia).
  rewrite Zlt_Qlt in H. rewrite !inject_Z_mult in H.
  change (inject_Z 20000) with 20000%Q in H.
  assert (E : (inject_Z s / inject_Z (Z.of_nat n) * 100 * 100
               == (10000 * inject_Z s) / inject_Z (Z.of_nat n))%Q) by (field; lra).
  rewrite E. apply Qlt_shift_div_r; [done|].
  unfold Qdiv. change (/ 2)%Q with (1 # 2)%Q. nra.
Qed.

(** A percentage above [k + 0.005] rounds to more than [k], one below
    to [k] at most. *)
Lemma percentage_gt (k s : Z) (n : nat) :
  (0 < n)%nat → (200 * k + 1) * Z.of_nat n < 20000 * s →
  float_gt (Fin (percentage s n)) (Fin (inject_Z k)) = true.
Proof.
  intros Hn H. apply (ratio_gt _ _ _ Hn) in H.
  unfold float_gt, float_lt, Qltb, percentage, round2.
  set (x := (inject_Z s / inject_Z (Z.of_nat n) * 100 * 100)%Q) in *.
  apply negb_true_iff, not_true_iff_false. rewrite Qle_bool_iff.
  destruct (py_round_near x) as [Hlo _].
  assert (Hr : 100 * k + 1 ≤ py_round x).
  { apply Z.lt_succ_r, Z.lt_nge. intros Hc.
    assert (Hq : (inject_Z (py_round x) <= inject_Z (100 * k))%Q)
      by (rewrite <- Zle_Qle; lia).
    rewrite inject_Z_plus, !inject_Z_mult in H. rewrite inject_Z_mult in Hq.
    change (inject_Z 200) with 200%Q in H. change (inject_Z 100) with 100%Q in Hq.
    change (inject_Z 1) with 1%Q in H. clearbody x.
    unfold Qdiv in H. change (/ 2)%Q with (1 # 2)%Q in H. lra. }
  rewrite Zle_Qle in Hr. rewrite inject_Z_plus, inject_Z_mult in Hr.
  change (inject_Z 100) with 100%Q in Hr. change (inject_Z 1) with 1%Q in Hr.
  generalize dependent (inject_Z (py_round x)). intros z _ Hr.
  unfold Qdiv. change (/ 100)%Q with (1 # 100)%Q. lra.
Qed.

Lemma percentage_le (k s : Z) (n : nat) :
  (0 < n)%nat → 20000 * s < (200 * k + 1) * Z.of_nat n →
  float_gt (Fin (percentage s n)) (Fin (inject_Z k)) = false.
Proof.
  intros Hn H. apply (ratio_lt _ _ _ Hn) in H.
  unfold float_gt, float_lt, Qltb, percentage, round2.
  set (x := (inject_Z s / inject_Z (Z.of_nat n) * 100 * 100)%Q) in *.
  apply negb_false_iff. rewrite Qle_bool_iff.
  destruct (py_round_near x) as [_ Hhi].
  assert (Hr : py_round x ≤ 100 * k).
  { apply Z.lt_succ_r, Z.lt_nge. intros Hc.
    assert (Hq : (inject_Z (100 * k + 1) <= inject_Z (py_round x))%Q)
      by (rewrite <- Zle_Qle; lia).
    rewrite inject_Z_plus, !inject_Z_mult in H. rewrite inject_Z_plus, inject_Z_mult in Hq.
    change (inject_Z 200) with 200%Q in H. change (inject_Z 100) with 100%Q in Hq.
    change (inject_Z 1) with 1%Q in H, Hq. clearbody x.
    unfold Qdiv in H. change (/ 2)%Q with (1 # 2)%Q in H. lra. }
  rewrite Zle_Qle in Hr. rewrite inject_Z_mult in Hr.
  change (inject_Z 100) with 100%Q in Hr.
  generalize dependent (inject_Z (py_round x)). intros z _ Hr.
  unfold Qdiv. change (/ 100)%Q with (1 # 100)%Q. lra.
Qed.

Lemma percentage_range (s : Z) (n : nat) :
  (0 < n)%nat → 0 ≤ s ≤ Z.of_nat n →
  (0 <= percentage s n)%Q ∧ (percentage s n <= 100)%Q.
Proof.
  intros Hn Hs. unfold percentage, round2.
  set (x := (inject_Z s / inject_Z (Z.of_nat n) * 100 * 100)%Q).
  assert (Hpos : (0 < inject_Z (Z.of_nat n))%Q)
    by (change 0%Q with (inject_Z 0); rewrite <- Zlt_Qlt; lia).
  assert (H0 : (0 <= inject_Z s)%Q)
    by (change 0%Q with (inject_Z 0); rewrite <- Zle_Qle; lia).
  assert (H1 : (inject_Z s <= inject_Z (Z.of_nat n))%Q) by (rewrite <- Zle_Qle; lia).
  assert (E : (x == (10000 * inject_Z s) / inject_Z (Z.of_nat n))%Q)
    by (unfold x; field; lra).
  destruct (py_round_between 0 10000 x) as [Hlo Hhi].
  - rewrite E. apply Qle_shift_div_l; [done|]. change (inject_Z 0) with 0%Q. lra.
  - rewrite E. apply Qle_shift_div_r; [done|]. change (inject_Z 10000) with 10000%Q. lra.
  - rewrite Zle_Qle in Hlo, Hhi. change (inject_Z 0) with 0%Q in Hlo.
    change (inject_Z 10000) with 10000%Q in Hhi.
    generalize dependent (inject_Z (py_round x)). intros z Hlo Hhi.
    unfold Qdiv. change (/ 100)%Q with (1 # 100)%Q. lra.
Qed.

(** ** The table of the report *)

Global Instance float_desc_trans : Transitive float_desc.
Proof.
  intros [a|] [b|] [c|]; simpl; try done. intros H1 H2. by transitivity b.
Qed.

Global Instance float_desc_total : Total float_desc.
Proof.
  intros [a|] [b|]; simpl; [|by left|by right|by left].
  destruct (Qlt_le_dec a b) as [H|H]; [right; by apply Qlt_le_weak | by left].
Qed.

Global Instance before_trans keys : Transitive (before keys).
Proof. intros i j k. unfold before. apply float_desc_trans. Qed.

Global Instance before_total keys : Total (before keys).
Proof. intros i j. unfold before. apply float_desc_total. Qed.

Lemma StronglySorted_lookup {A} (R : relation A) (l : list A) a b x y :
  StronglySorted R l → (a < b)%nat → l !! a = Some x → l !! b = Some y → R x y.
Proof.
  intros Hs. revert a b. induction Hs as [|z l _ IH Hz]; intros a b Hab Ha Hb; [done|].
  destruct b as [|b]; [lia|]. simpl in Hb. destruct a as [|a]; simpl in Ha.
  - injection Ha as <-. rewrite Forall_forall in Hz.
    by eapply Hz, list_elem_of_lookup_2.
  - apply (IH a b); [lia | done | done].
Qed.

Lemma filter_ext_Forall {A} (P1 P2 : A → Prop)
    `{∀ x, Decision (P1 x)} `{∀ x, Decision (P2 x)} (l : list A) :
  Forall (λ x, P1 x ↔ P2 x) l → filter P1 l = filter P2 l.
Proof.
  induction 1 as [|x l Hx _ IH]; [done|].
  rewrite !filter_cons, IH.
  destruct (decide (P1 x)), (decide (P2 x)); tauto.
Qed.

Lemma kept_snoc (mask : list bool) (b : bool) :
  kept (mask ++ [b]) = kept mask ++ (if b then [length mask] else []).
Proof.
  unfold kept. rewrite length_app. simpl length.
  rewrite seq_app, filter_app. f_equal.
  - apply filter_ext_Forall, Forall_forall. intros i Hi.
    apply elem_of_seq in Hi. by rewrite lookup_app_l by lia.
  - simpl. rewrite filter_cons, filter_nil.
    rewrite lookup_app_r, Nat.sub_diag by lia. simpl.
    destruct b; [by rewrite decide_True | by rewrite decide_False].
Qed.

Lemma length_kept (flags : list Z) :
  length (kept ((λ x, bool_decide (x = 1)) <$> flags))
  = length (filter (λ z, z = 1) flags).
Proof.
  induction flags as [|z flags IH] using rev_ind; [done|].
  rewrite fmap_app, filter_app, !length_app. simpl fmap.
  rewrite kept_snoc, length_app, IH, length_fmap. f_equal.
  rewrite filter_cons, filter_nil.
  destruct (decide (z = 1)).
  - by rewrite bool_decide_eq_true_2.
  - by rewrite bool_decide_eq_false_2.
Qed.

Lemma NoDup_kept mask : NoDup (kept mask).
Proof. apply NoDup_filter, NoDup_seq. Qed.

Lemma key_of_amount rows i t :
  rows !! i = Some t → key_of ((λ t, Fin (amount t)) <$> rows) i = Fin (amount t).
Proof. intros Ht. unfold key_of. by rewrite list_lookup_fmap, Ht. Qed.

Lemma top_labels_spec rows flags :
  NoDup (top_labels rows flags)
  ∧ length (top_labels rows flags)
    = (10 `min` length (filter (λ z : Z, z = 1%Z) flags))%nat
  ∧ (∀ a b i j ti tj,
       (a < b)%nat →
       top_labels rows flags !! a = Some i → top_labels rows flags !! b = Some j →
       rows !! i = Some ti → rows !! j = Some tj → (amount tj <= amount ti)%Q)
  ∧ (∀ i j ti tj,
       i ∈ top_labels rows flags → j ∉ top_labels rows flags →
       flags !! j = Some 1 →
       rows !! i = Some ti → rows !! j = Some tj → (amount tj <= amount ti)%Q).
Proof.
  unfold top_labels, sort_values_desc.
  set (keys := (λ t, Fin (amount t)) <$> rows).
  set (L := kept ((λ x, bool_decide (x = 1)) <$> flags)).
  set (sorted := merge_sort (before keys) L).
  assert (HP : sorted ≡ₚ L) by apply merge_sort_Permutation.
  assert (HS : StronglySorted (before keys) (take 10 sorted ++ drop 10 sorted)).
  { rewrite take_drop. apply StronglySorted_merge_sort; apply _. }
  split; [|split; [|split]].
  - eapply sublist_NoDup; [|apply sublist_take].
    rewrite HP. apply NoDup_kept.
  - rewrite length_take, HP. unfold L. by rewrite length_kept.
  - intros a b i j ti tj Hab Ha Hb Hi Hj.
    apply StronglySorted_app_1_l in HS.
    pose proof (StronglySorted_lookup _ _ _ _ _ _ HS Hab Ha Hb) as H.
    unfold before, keys in H.
    by rewrite (key_of_amount _ _ _ Hi), (key_of_amount _ _ _ Hj) in H.
  - intros i j ti tj Hi Hj Hf Hti Htj.
    assert (HjS : j ∈ take 10 sorted ++ drop 10 sorted).
    { rewrite take_drop, HP. by apply kept_flags. }
    apply elem_of_app in HjS as [HjS|HjS]; [done|].
    pose proof (StronglySorted_app_1_elem_of _ _ _ _ _ HS Hi HjS) as H.
    unfold before, keys in H.
    by rewrite (key_of_amount _ _ _ Hti), (key_of_amount _ _ _ Htj) in H.
Qed.

Lemma reported_verdicts sk rows :
  reported rows (verdict sk rows <$> rows) (verdicts sk rows (pd_DataFrame rows)).
Proof.
  unfold reported. rewrite length_fmap, verdicts_suspicious.
  rewrite !verdicts_other by (by apply (bool_decide_unpack _)).
  by repeat split.
Qed.

Lemma verdict_bit sk rows t : verdict sk rows t = 0 ∨ verdict sk rows t = 1.
Proof.
  unfold verdict.
  destruct (rule_flag_b2z rows t) as [r ->], (ml_flag_b2z sk rows t) as [m ->].
  rewrite max_b2z. destruct (r || m); [by right | by left].
Qed.

(** ** What the report says of a batch *)

(** X16.  The summary of the report of a batch that is not empty: the number
    of rows, the number of rows with [suspicious] = 1, and a percentage
    between 0 and 100; the report returns and changes nothing. *)
Theorem report_summary rows flags df w F :
  rows ≠ [] → heap w !! df = Some F → reported rows flags F →
  Forall (λ z, z = 0 ∨ z = 1) flags →
  ∃ r p,
    generate_pdf_report df w = (Ok r, w)
    ∧ total_txn r = length rows
    ∧ total_suspicious r = count_flagged flags
    ∧ perc r = Fin p ∧ (0 <= p)%Q ∧ (p <= 100)%Q.
Proof.
  intros Hne HF HR Hb.
  eexists _, _. split; [by eapply generate_pdf_report_run|]. simpl.
  split; [done|]. split; [by apply sum_Z_bits|]. split; [done|].
  apply percentage_range.
  - destruct rows; [done | simpl; lia].
  - rewrite sum_Z_bits by done. destruct HR as (_ & <- & _). apply count_flagged_le.
Qed.

(** X17.  The risk level of the report, from the two counts: [High Risk] above
    5.005 % of suspicious rows, [Low Risk] below 2.005 %, [Elevated] in
    between (the percentage is compared after it has been rounded to two
    decimals). *)
Theorem report_risk_level rows flags df w F :
  rows ≠ [] → heap w !! df = Some F → reported rows flags F →
  ∃ r,
    generate_pdf_report df w = (Ok r, w)
    ∧ (1001 * Z.of_nat (total_txn r) < 20000 * total_suspicious r →
       risk_level r = "High Risk"%string)
    ∧ (401 * Z.of_nat (total_txn r) < 20000 * total_suspicious r →
       20000 * total_suspicious r < 1001 * Z.of_nat (total_txn r) →
       risk_level r = "Elevated"%string)
    ∧ (20000 * total_suspicious r < 401 * Z.of_nat (total_txn r) →
       risk_level r = "Low Risk"%string).
Proof.
  intros Hne HF HR.
  eexists. split; [by eapply generate_pdf_report_run|].
  cbn [total_txn total_suspicious risk_level].
  assert (Hn : (0 < length rows)%nat) by (destruct rows; [done | simpl; lia]).
  unfold risk_of.
  change (Fin 5) with (Fin (inject_Z 5)). change (Fin 2) with (Fin (inject_Z 2)).
  split; [|split].
  - intros H. by rewrite (percentage_gt 5 _ _ Hn H).
  - intros H2 H5.
    by rewrite (percentage_le 5 _ _ Hn H5), (percentage_gt 2 _ _ Hn H2).
  - intros H2.
    rewrite (percentage_le 5 _ _ Hn) by lia.
    by rewrite (percentage_le 2 _ _ Hn H2).
Qed.

(** X18.  The table of the report: at most ten lines, one for each of ten
    different rows with [suspicious] = 1 (all of them when there are
    fewer), by decreasing amount, and no suspicious row left out has a
    larger amount than a row of the table. *)
Theorem report_top_ten rows flags df w F :
  rows ≠ [] → heap w !! df = Some F → reported rows flags F →
  ∃ r labels,
    generate_pdf_report df w = (Ok r, w)
    ∧ Forall2 (λ i line, ∃ t, rows !! i = Some t ∧ flags !! i = Some 1
                              ∧ line = row_cells t)
              labels (top_suspicious r)
    ∧ NoDup labels
    ∧ length labels = (10 `min` length (filter (λ z : Z, z = 1%Z) flags))%nat
    ∧ (∀ a b i j ti tj,
         (a < b)%nat → labels !! a = Some i → labels !! b = Some j →
         rows !! i = Some ti → rows !! j = Some tj → (amount tj <= amount ti)%Q)
    ∧ (∀ i j ti tj,
         i ∈ labels → j ∉ labels → flags !! j = Some 1 →
         rows !! i = Some ti → rows !! j = Some tj → (amount tj <= amount ti)%Q).
Proof.
  intros Hne HF HR.
  exists (mkReport (length rows) (sum_Z flags)
            (Fin (percentage (sum_Z flags) (length rows)))
            (risk_of (percentage (sum_Z flags) (length rows)))
            (line_of rows <$> top_labels rows flags)),
         (top_labels rows flags).
  split; [by eapply generate_pdf_report_run|]. simpl.
  split; [|apply top_labels_spec].
  apply Forall2_fmap_r, Forall_Forall2_diag, Forall_forall. intros i Hi.
  destruct HR as (_ & Hl & _).
  destruct (top_labels_row rows flags i Hl Hi) as [t Ht].
  exists t. unfold line_of. rewrite Ht.
  split; [done|]. split; [by apply (top_labels_flagged rows) | done].
Qed.

Lemma StronglySorted_filter_seq (P : nat → Prop) `{∀ i, Decision (P i)} a n :
  StronglySorted lt (filter P (seq a n)).
Proof.
  revert a. induction n as [|n IH]; intros a; [constructor|].
  simpl seq. rewrite filter_cons. destruct (decide (P a)); [|apply IH].
  constructor; [apply IH|].
  apply Forall_forall. intros i Hi.
  apply list_elem_of_filter in Hi as [_ Hi]. apply elem_of_seq in Hi. lia.
Qed.

(** X19.  On a frame with no row the report does not fail: [0 / 0] is [nan],
    no comparison with [nan] holds, and the report says [Low Risk], with
    an empty table. *)
Theorem report_empty_frame df w F :
  heap w !! df = Some F → nrows F = 0%nat →
  data F !! "suspicious" = Some (SInt []) → data F !! "amount" = Some (SFloat []) →
  generate_pdf_report df w = (Ok (mkReport 0 0 NaN "Low Risk" []), w).
Proof.
  intros HF Hn Hs Ha. unfold generate_pdf_report.
  step ltac:(by apply frame_Ok). cbv zeta.
  step ltac:(by eapply getitem_Ok).
  step ltac:(by apply lift_Ok).
  rewrite Hn.
  step ltac:(by apply lift_Ok).
  step ltac:(by eapply getitem_Ok).
  step ltac:(by apply lift_Ok).
  step ltac:(by eapply getitem_Ok).
  step ltac:(by apply lift_Ok).
  reflexivity.
Qed.

(** ** The report of a simulation *)

Lemma count_flagged_tail (flags : list Z) (k : nat) :
  (∀ i, (k ≤ i < length flags)%nat → flags !! i = Some 1) →
  Z.of_nat (length flags - k) ≤ count_flagged flags.
Proof.
  intros H. unfold count_flagged.
  rewrite <- (take_drop k flags) at 2. rewrite filter_app, length_app.
  rewrite (filter_all (λ z, z = 1) (drop k flags)); [rewrite length_drop; lia|].
  apply Forall_forall. intros z Hz.
  apply list_elem_of_lookup_1 in Hz as [i Hi].
  pose proof (lookup_lt_Some _ _ _ Hi) as Hlt. rewrite length_drop in Hlt.
  rewrite lookup_drop, H in Hi by lia. by injection Hi.
Qed.

Lemma simulation_report mt sk base_time n g w :
  ∃ df w' r,
    run_simulation mt sk base_time n g w
    = (Ok df, w', (generate_transactions mt base_time n g).2)
    ∧ generate_pdf_report df w' = (Ok r, w')
    ∧ total_txn r = (Z.to_nat n + 200)%nat
    ∧ 200 ≤ total_suspicious r
    ∧ risk_level r = risk_of (percentage (total_suspicious r) (total_txn r)).
Proof.
  set (rows := (generate_rows mt base_time n g).1).
  pose proof (generated_length mt base_time n g) as Hlen. fold rows in Hlen.
  eexists _, _, _. split; [apply run_simulation_run|]. fold rows.
  split; [eapply generate_pdf_report_run;
          [apply generated_nonempty | apply heap_put | apply reported_verdicts]|].
  cbn [total_txn total_suspicious risk_level]. fold rows.
  split; [done|]. split; [|done].
  rewrite sum_Z_bits by (apply Forall_fmap, Forall_forall; intros t _; apply verdict_bit).
  etransitivity; [|apply (count_flagged_tail _ (Z.to_nat n))].
  - rewrite length_fmap. lia.
  - intros i Hi. rewrite length_fmap in Hi.
    destruct (lookup_lt_is_Some_2 rows i) as [t Ht]; [lia|].
    rewrite list_lookup_fmap, Ht. simpl. f_equal.
    destruct (injected_structuring mt base_time n g i t Ht) as [Hsm Hc]; [lia|].
    fold rows in Hc. unfold verdict.
    assert (Hf : rule_flag rows t = 1).
    { rewrite rule_flag_fires, fires1_true; [done | lia | done]. }
    rewrite Hf. destruct (ml_flag_b2z sk rows t) as [[|] ->]; done.
Qed.

(** X20.  With at most 3795 rows asked for, the report of a simulation always
    says [High Risk], whatever the draws and the forest: the 200 injected
    rows alone are more than 5.005 % of the batch. *)
Theorem simulation_high_risk mt sk base_time n g w :
  n ≤ 3795 →
  ∃ df w' r,
    run_simulation mt sk base_time n g w
    = (Ok df, w', (generate_transactions mt base_time n g).2)
    ∧ generate_pdf_report df w' = (Ok r, w')
    ∧ risk_level r = "High Risk"%string.
Proof.
  intros Hn.
  destruct (simulation_report mt sk base_time n g w)
    as (df & w' & r & Hrun & Hrep & Ht & Hs & Hr).
  exists df, w', r. split; [done|]. split; [done|].
  rewrite Hr. unfold risk_of. change (Fin 5) with (Fin (inject_Z 5)).
  rewrite percentage_gt; [done | lia | lia].
Qed.

(** X21.  With at most 9775 rows asked for, which covers every position of the
    slider but the last, the report of a simulation never says
    [Low Risk]. *)
Theorem simulation_never_low_risk mt sk base_time n g w :
  n ≤ 9775 →
  ∃ df w' r,
    run_simulation mt sk base_time n g w
    = (Ok df, w', (generate_transactions mt base_time n g).2)
    ∧ generate_pdf_report df w' = (Ok r, w')
    ∧ risk_level r ≠ "Low Risk"%string.
Proof.
  intros Hn.
  destruct (simulation_report mt sk base_time n g w)
    as (df & w' & r & Hrun & Hrep & Ht & Hs & Hr).
  exists df, w', r. split; [done|]. split; [done|].
  rewrite Hr. unfold risk_of.
  change (Fin 2) with (Fin (inject_Z 2)).
  rewrite (percentage_gt 2) by lia.
  by destruct (float_gt _ _).
Qed.

(** ** The page and the report show the same figures *)

Lemma py_round_comp x y : (x == y)%Q → py_round x = py_round y.
Proof.
  intros H. unfold py_round. cbv zeta.
  rewrite (Qfloor_comp _ _ H).
  assert (E : (x - inject_Z (Qfloor y) ?= 1 # 2)%Q = (y - inject_Z (Qfloor y) ?= 1 # 2)%Q)
    by (by rewrite H).
  by rewrite E.
Qed.

Lemma round2_comp x y : (x == y)%Q → round2 x = round2 y.
Proof.
  intros H. unfold round2. rewrite (py_round_comp (x * 100) (y * 100)); [done|].
  by rewrite H.
Qed.

Lemma finite_of_Z (l : list Z) : finite (float_of_Z <$> l) = inject_Z <$> l.
Proof. induction l as [|z l IH]; [done|]. unfold finite in *. simpl. f_equal. exact IH. Qed.

Lemma sum_Q_inject (l : list Z) : (sum_Q (inject_Z <$> l) == inject_Z (sum_Z l))%Q.
Proof.
  induction l as [|z l IH]; [done|].
  simpl. fold (sum_Z l). fold (sum_Q (inject_Z <$> l)). rewrite IH.
  by rewrite inject_Z_plus.
Qed.

Lemma mean_percentage (flags : list Z) :
  flags ≠ [] →
  float_round2 (float_mul (mean_float (float_of_Z <$> flags)) (Fin 100))
  = Fin (percentage (sum_Z flags) (length flags)).
Proof.
  intros Hne. unfold mean_float. rewrite finite_of_Z.
  destruct flags as [|z flags]; [done|].
  rewrite fmap_cons. cbn [float_mul float_round2]. f_equal. unfold percentage.
  apply round2_comp. rewrite <- fmap_cons.
  rewrite (sum_Q_inject (z :: flags)), length_fmap. reflexivity.
Qed.

(** X22.  The figures of the page are the figures of the report: the same
    number of rows, the same number of suspicious rows and the same
    percentage, whether the batch is empty or not. *)
Theorem metrics_match_report rows flags df w F :
  heap w !! df = Some F → reported rows flags F →
  ∃ r,
    generate_pdf_report df w = (Ok r, w)
    ∧ key_metrics df w = (Ok (total_txn r, total_suspicious r, perc r), w).
Proof.
  intros HF HR. pose proof HR as (Hn & Hl & Hs & _ & _ & _ & Ha & _).
  destruct (decide (rows = [])) as [->|Hne].
  - destruct flags; [|done]. simpl in Hn, Ha.
    eexists. split.
    { unfold generate_pdf_report.
      step ltac:(by apply frame_Ok). cbv zeta.
      step ltac:(by eapply getitem_Ok).
      step ltac:(by apply lift_Ok).
      rewrite Hn.
      step ltac:(by apply lift_Ok).
      step ltac:(by eapply getitem_Ok).
      step ltac:(by apply lift_Ok).
      step ltac:(by eapply getitem_Ok).
      step ltac:(by apply lift_Ok).
      reflexivity. }
    cbn [total_txn total_suspicious perc].
    unfold key_metrics.
    step ltac:(by apply frame_Ok).
    step ltac:(by eapply getitem_Ok).
    step ltac:(by apply lift_Ok).
    step ltac:(by eapply getitem_Ok).
    step ltac:(by apply lift_Ok).
    by rewrite Hn.
  - assert (Hfl : flags ≠ []) by (intros ->; by destruct rows).
    eexists. split; [by eapply generate_pdf_report_run|].
    cbn [total_txn total_suspicious perc].
    unfold key_metrics.
    step ltac:(by apply frame_Ok).
    step ltac:(by eapply getitem_Ok).
    step ltac:(by apply lift_Ok).
    step ltac:(by eapply getitem_Ok).
    step ltac:(by apply lift_Ok).
    by rewrite mean_percentage, Hn, Hl.
Qed.

(** X23.  The CSV file holds the rows with [suspicious] = 1, all of them, once
    each and in the order of the batch; when the flags are 0 or 1, it has
    as many rows as the page counts suspicious transactions. *)
Theorem csv_rows_are_the_suspicious flags df w F :
  heap w !! df = Some F → data F !! "suspicious" = Some (SInt flags) →
  ∃ labels,
    suspicious_df df w = (Ok labels, w)
    ∧ (∀ i, i ∈ labels ↔ flags !! i = Some 1)
    ∧ StronglySorted lt labels
    ∧ Z.of_nat (length labels) = count_flagged flags.
Proof.
  intros HF Hs. eexists. split; [|split; [|split]].
  - unfold suspicious_df.
    step ltac:(by eapply getitem_Ok).
    step ltac:(by apply lift_Ok).
    reflexivity.
  - apply kept_flags.
  - unfold kept. apply StronglySorted_filter_seq.
  - unfold count_flagged. by rewrite length_kept.
Qed.

(** ** The theorems at work *)

Lemma report_summary_witness :
  ∃ r p,
    generate_pdf_report 1 (put 1 (scored toy sample) (world_of sample))
    = (Ok r, put 1 (scored toy sample) (world_of sample))
    ∧ total_txn r = length sample
    ∧ total_suspicious r = count_flagged (verdict toy sample <$> sample)
    ∧ perc r = Fin p ∧ (0 <= p)%Q ∧ (p <= 100)%Q.
Proof.
  apply (report_summary sample (verdict toy sample <$> sample) 1 _ (scored toy sample)).
  - done.
  - apply heap_put.
  - apply reported_verdicts.
  - apply Forall_fmap, Forall_forall. intros t _. apply verdict_bit.
Defined.

Lemma report_risk_level_witness :
  ∃ r,
    generate_pdf_report 1 (put 1 (scored toy sample) (world_of sample))
    = (Ok r, put 1 (scored toy sample) (world_of sample))
    ∧ (1001 * Z.of_nat (total_txn r) < 20000 * total_suspicious r →
       risk_level r = "High Risk"%string)
    ∧ (401 * Z.of_nat (total_txn r) < 20000 * total_suspicious r →
       20000 * total_suspicious r < 1001 * Z.of_nat (total_txn r) →
       risk_level r = "Elevated"%string)
    ∧ (20000 * total_suspicious r < 401 * Z.of_nat (total_txn r) →
       risk_level r = "Low Risk"%string).
Proof.
  apply (report_risk_level sample (verdict toy sample <$> sample) 1 _ (scored toy sample)).
  - done.
  - apply heap_put.
  - apply reported_verdicts.
Defined.

Lemma report_top_ten_witness :
  ∃ r labels,
    generate_pdf_report 1 (put 1 (scored toy sample) (world_of sample))
    = (Ok r, put 1 (scored toy sample) (world_of sample))
    ∧ Forall2 (λ i line, ∃ t, sample !! i = Some t
                              ∧ (verdict toy sample <$> sample) !! i = Some 1
                              ∧ line = row_cells t)
              labels (top_suspicious r)
    ∧ NoDup labels
    ∧ length labels
      = (10 `min` length (filter (λ z : Z, z = 1%Z) (verdict toy sample <$> sample)))%nat
    ∧ (∀ a b i j ti tj,
         (a < b)%nat → labels !! a = Some i → labels !! b = Some j →
         sample !! i = Some ti → sample !! j = Some tj → (amount tj <= amount ti)%Q)
    ∧ (∀ i j ti tj,
         i ∈ labels → j ∉ labels → (verdict toy sample <$> sample) !! j = Some 1 →
         sample !! i = Some ti → sample !! j = Some tj → (amount tj <= amount ti)%Q).
Proof.
  apply (report_top_ten sample (verdict toy sample <$> sample) 1 _ (scored toy sample)).
  - done.
  - apply heap_put.
  - apply reported_verdicts.
Defined.

Lemma report_empty_frame_witness :
  generate_pdf_report 1 (put 1 no_rows (world_of []))
  = (Ok (mkReport 0 0 NaN "Low Risk" []), put 1 no_rows (world_of [])).
Proof. by apply (report_empty_frame 1 _ no_rows). Defined.

Lemma simulation_high_risk_witness :
  ∃ df w' r,
    run_simulation toy_draws toy 0 2 toy_generators (world_of [])
    = (Ok df, w', (generate_transactions toy_draws 0 2 toy_generators).2)
    ∧ generate_pdf_report df w' = (Ok r, w')
    ∧ risk_level r = "High Risk"%string.
Proof. apply (simulation_high_risk toy_draws toy 0 2 toy_generators (world_of [])). lia. Defined.

Lemma simulation_never_low_risk_witness :
  ∃ df w' r,
    run_simulation toy_draws toy 0 5000 toy_generators (world_of [])
    = (Ok df, w', (generate_transactions toy_draws 0 5000 toy_generators).2)
    ∧ generate_pdf_report df w' = (Ok r, w')
    ∧ risk_level r ≠ "Low Risk"%string.
Proof.
  apply (simulation_never_low_risk toy_draws toy 0 5000 toy_generators (world_of [])). lia.
Defined.

Lemma metrics_match_report_witness :
  ∃ r,
    generate_pdf_report 1 (put 1 (scored toy sample) (world_of sample))
    = (Ok r, put 1 (scored toy sample) (world_of sample))
    ∧ key_metrics 1 (put 1 (scored toy sample) (world_of sample))
      = (Ok (total_txn r, total_suspicious r, perc r),
         put 1 (scored toy sample) (world_of sample)).
Proof.
  apply (metrics_match_report sample (verdict toy sample <$> sample) 1 _ (scored toy sample)).
  - apply heap_put.
  - apply reported_verdicts.
Defined.

Lemma csv_rows_are_the_suspicious_witness :
  ∃ labels,
    suspicious_df 1 (put 1 (scored toy sample) (world_of sample))
    = (Ok labels, put 1 (scored toy sample) (world_of sample))
    ∧ (∀ i, i ∈ labels ↔ (verdict toy sample <$> sample) !! i = Some 1)
    ∧ StronglySorted lt labels
    ∧ Z.of_nat (length labels) = count_flagged (verdict toy sample <$> sample).
Proof.
  apply (csv_rows_are_the_suspicious (verdict toy sample <$> sample) 1 _
           (scored toy sample)).
  - apply heap_put.
  - apply verdicts_suspicious.
Defined.
